(** * Universal-Backend: the request pipeline of [src/index.ts]

    A shallow embedding of the gateway's own code: the per-client rate
    limiter, the authorization gate, the error normaliser, the four built-in
    route handlers and the start-up script, followed by the properties the
    specification states about them.

    Conventions.
    - JavaScript numbers that the code uses as counters, status codes and
      millisecond timestamps are integers far below 2^53; they are [Z].
    - JavaScript strings are [string]; [String.length] counts their code
      units.
    - [Map<string, _>] and the request's header table are [gmap string _].
    - The code reads the wall clock ([Date.now()], [new Date()]); every
      reading consumes the next value of an oracle carried by the world.
    - Collaborators imported from [./utils] and the optional modules are
      fields of a [Host] record.
    - Of the framework, the model keeps what decides which response a
      request gets: [c.json] refuses a status that cannot carry a body, an
      OPTIONS request is answered by the cors stage, a HEAD request is routed
      as a GET and answered without a body, and every handler runs at a level
      that hands a thrown [Error] to the error handler and throws anything
      else on. Response headers set by the library stages, logging, pretty
      printing and the 30 s deadline are not recorded; a deadline that
      passes shows as the [HTTPException] 504 of the call that was running. *)

From Stdlib Require Import ZArith Ascii String List Lia.
From stdpp Require Import gmap strings list fin_maps.

Set Warnings "-register-all".
Open Scope string_scope.
Open Scope Z_scope.

(** ** Values, responses, requests *)

(** A JavaScript value as far as handlers build or inspect one. Object
    fields keep the order of the literal that created them. *)
Inductive JsValue : Type :=
| JUndefined
| JNull
| JBool (b : bool)
| JNum (n : Z)
| JStr (s : string)
| JArr (items : list JsValue)
| JObj (fields : list (string * JsValue)).

(** [!v] is [negb (truthy v)]. *)
Definition truthy (v : JsValue) : bool :=
  match v with
  | JUndefined | JNull => false
  | JBool b => b
  | JNum n => negb (Z.eqb n 0)
  | JStr s => negb (String.eqb s "")
  | JArr _ | JObj _ => true
  end.

Record Response : Type := mkResponse {
  status : Z;
  body : JsValue;
  headers : list (string * string)
}.

(** The response that [c.json(body, status, headers)] builds; [c.json(body)]
    answers 200. Only the headers named by the caller are recorded. A
    response without a body has body [JUndefined]. *)
Definition jsonResponse (b : JsValue) (st : Z) (hs : list (string * string))
    : Response :=
  {| status := st; body := b; headers := hs |}.

(** The [Response] constructor takes a status from 200 to 599 that is not
    one of the statuses without a body. *)
Definition validStatus (st : Z) : bool :=
  (200 <=? st) && (st <=? 599) &&
  negb (Z.eqb st 204 || Z.eqb st 205 || Z.eqb st 304).

Record Request : Type := mkRequest {
  method : string;
  path : list string;          (* the path split at its slashes *)
  reqHeaders : gmap string string
}.

Record Context : Type := mkContext {
  req : Request;
  params : list (string * string)   (* bound by the matched route pattern *)
}.

(** [c.req.header(name)], with the name as the source spells it; [None] is
    [undefined]. *)
Definition header (c : Context) (name : string) : option string :=
  reqHeaders (req c) !! name.

(** [c.req.param(name)]. *)
Fixpoint assoc (name : string) (l : list (string * string)) : option string :=
  match l with
  | [] => None
  | (k, v) :: l' => if String.eqb k name then Some v else assoc name l'
  end.

Definition param (c : Context) (name : string) : option string :=
  assoc name (params c).

(** ** Effects: shared store, clock, exceptions *)

(** line 21: the value type of [rateLimitStore]. *)
Record RateRecord : Type := mkRecord {
  count : Z;
  resetTime : Z
}.

Record World : Type := mkWorld {
  rateLimitStore : gmap string RateRecord;
  clock : nat -> Z;       (* the n-th reading of the wall clock, in ms *)
  clockReads : nat        (* readings consumed so far *)
}.

(** What can be thrown: Hono's [HTTPException(status, {message})], another
    [Error], or a value that is not an [Error] at all. *)
Inductive Failure : Type :=
| HTTPException (st : Z) (message : string)
| Thrown (detail : JsValue)
| NotAnError (value : JsValue).

(** [err instanceof Error] *)
Definition isError (e : Failure) : bool :=
  match e with
  | NotAnError _ => false
  | _ => true
  end.

Inductive Result (A : Type) : Type :=
| Returns (a : A)
| Throws (e : Failure).
Arguments Returns {A} a.
Arguments Throws {A} e.

(** State and exceptions; the state survives a throw, as mutations made
    before a JavaScript exception do. *)
Definition SE (S A : Type) : Type := S -> Result A * S.

Definition ret {S A} (a : A) : SE S A := fun s => (Returns a, s).

Definition throw {S A} (e : Failure) : SE S A := fun s => (Throws e, s).

Definition bind {S A B} (m : SE S A) (k : A -> SE S B) : SE S B :=
  fun s =>
    match m s with
    | (Returns a, s') => k a s'
    | (Throws e, s') => (Throws e, s')
    end.

Definition try_catch {S A} (m : SE S A) (handler : Failure -> SE S A) : SE S A :=
  fun s =>
    match m s with
    | (Returns a, s') => (Returns a, s')
    | (Throws e, s') => handler e s'
    end.

Notation "'let*' x ':=' m 'in' k" := (bind m (fun x => k))
  (at level 10, x name, m at level 100, k at level 200).

(** Request handling runs over the [World]. *)
Definition M : Type -> Type := SE World.

(** [c.json(body, status, headers)]: building the response throws a
    [RangeError] for a status outside 200-599 and a [TypeError] for a status
    that cannot carry a body. *)
Definition c_json (b : JsValue) (st : Z) (hs : list (string * string))
    : M Response :=
  if validStatus st then ret (jsonResponse b st hs)
  else if (200 <=? st) && (st <=? 599) then throw (Thrown (JStr "TypeError"))
  else throw (Thrown (JStr "RangeError")).

(** The wall clock as the next reading will show it, and the world once
    that reading has been taken. *)
Definition now (w : World) : Z := clock w (clockReads w).

Definition tick (w : World) : World :=
  {| rateLimitStore := rateLimitStore w;
     clock := clock w;
     clockReads := S (clockReads w) |}.

(** [Date.now()] and the time value of [new Date()]. *)
Definition Date_now : M Z := fun w => (Returns (now w), tick w).

Definition withStore (s : gmap string RateRecord) (w : World) : World :=
  {| rateLimitStore := s; clock := clock w; clockReads := clockReads w |}.

Definition getStore : M (gmap string RateRecord) :=
  fun w => (Returns (rateLimitStore w), w).

Definition putStore (s : gmap string RateRecord) : M unit :=
  fun w => (Returns tt, withStore s w).

(** A middleware either answers or hands over to the rest of the chain;
    both gates call [next()] in tail position only. *)
Inductive Step : Type :=
| Next
| Respond (r : Response).

(** ** Rate limiter (lines 23-41) *)

Definition defaultWindowMs : Z := 15 * 60 * 1000.
Definition defaultMax : Z := 100.

(** [v || otherwise] on header values: [undefined] and the empty string are
    falsy. *)
Definition orElse (v : option string) (otherwise : string) : string :=
  match v with
  | Some s => if String.eqb s "" then otherwise else s
  | None => otherwise
  end.

(** line 25 *)
Definition clientKey (c : Context) : string :=
  orElse (header c "CF-Connecting-IP")
         (orElse (header c "X-Forwarded-For") "anonymous").

(** What [c.json({ error: 'Too many requests' }, 429)] returns. *)
Definition tooManyRequests : Response :=
  jsonResponse (JObj [("error", JStr "Too many requests")]) 429 [].

(** lines 24-40. [record.count++] updates the object that the map holds. *)
Definition rateLimit (windowMs max : Z) (c : Context) : M Step :=
  let key := clientKey c in
  let* now := Date_now in
  let* store := getStore in
  match store !! key with
  | None =>
      let* _ := putStore
        (<[key := {| count := 1; resetTime := now + windowMs |}]> store) in
      ret Next
  | Some record =>
      if now >? resetTime record then
        let* _ := putStore
          (<[key := {| count := 1; resetTime := now + windowMs |}]> store) in
        ret Next
      else if count record >=? max then
        let* resp := c_json (JObj [("error", JStr "Too many requests")]) 429 [] in
        ret (Respond resp)
      else
        let* _ := putStore
          (<[key := {| count := count record + 1;
                       resetTime := resetTime record |}]> store) in
        ret Next
  end.

(** The same lines 27-39 as a function of the key, the clock reading and the
    store alone, for reasoning about successive requests. *)
Definition rateLimitAt (windowMs max : Z) (key : string) (now : Z)
    (store : gmap string RateRecord) : Step * gmap string RateRecord :=
  match store !! key with
  | None =>
      (Next, <[key := {| count := 1; resetTime := now + windowMs |}]> store)
  | Some record =>
      if now >? resetTime record then
        (Next, <[key := {| count := 1; resetTime := now + windowMs |}]> store)
      else if count record >=? max then
        (Respond tooManyRequests, store)
      else
        (Next,
         <[key := {| count := count record + 1;
                     resetTime := resetTime record |}]> store)
  end.

(** A run of the limiter over successive arrivals, each given by its client
    key and the clock reading it sees; requests of different clients may
    interleave. *)
Fixpoint rateLimitRun (windowMs max : Z) (arrivals : list (string * Z))
    (store : gmap string RateRecord) : list Step * gmap string RateRecord :=
  match arrivals with
  | [] => ([], store)
  | (key, now) :: rest =>
      let '(step, store') := rateLimitAt windowMs max key now store in
      let '(steps, store'') := rateLimitRun windowMs max rest store' in
      (step :: steps, store'')
  end.

(** The clock readings seen by client [k], and the limiter's answers to
    that client, in arrival order. *)
Fixpoint timesOf (k : string) (arrivals : list (string * Z)) : list Z :=
  match arrivals with
  | [] => []
  | (key, t) :: rest =>
      if String.eqb key k then t :: timesOf k rest else timesOf k rest
  end.

Fixpoint decisionsOf (k : string) (arrivals : list (string * Z))
    (steps : list Step) : list Step :=
  match arrivals, steps with
  | (key, _) :: rest, step :: steps' =>
      if String.eqb key k then step :: decisionsOf k rest steps'
      else decisionsOf k rest steps'
  | _, _ => []
  end.

(** ** Authorization gate (lines 43-49) *)

(** What [c.json({ error: 'Unauthorized' }, 401)] returns; 401 carries a
    body, so the call does not throw. *)
Definition unauthorized : Response :=
  jsonResponse (JObj [("error", JStr "Unauthorized")]) 401 [].

(** [s.startsWith(p)] *)
Definition startsWith (s p : string) : bool := String.prefix p s.

(** [auth?.startsWith('Bearer ')] is [undefined], hence falsy, when the
    header is missing. *)
Definition requireAuth (c : Context) : Step :=
  let auth := header c "Authorization" in
  let bearer :=
    match auth with
    | Some a => startsWith a "Bearer "
    | None => false
    end in
  if negb bearer then Respond unauthorized else Next.

(** ** What the runtime and the collaborators provide *)

(** A route pattern segment: a literal, or a [:name] parameter. *)
Inductive Segment : Type :=
| Lit (s : string)
| Param (name : string).

Record RouteEntry : Type := mkRoute {
  routeMethod : string;
  routePattern : list Segment;
  routeHandler : Context -> M Response
}.

(** The outcome of awaiting a collaborator's promise. *)
Inductive Settled : Type :=
| Resolved
| Rejected (e : Failure).

Record Host : Type := mkHost {
  (* JavaScript runtime *)
  toISOString : Z -> string;       (* Date.prototype.toISOString of a time value *)
  parseInt : string -> Z;
  uptimeSeconds : Z;               (* Math.floor(process.uptime()) *)
  heapUsedMiB : Z;                 (* Math.round(heapUsed / 1024 / 1024) *)
  heapTotalMiB : Z;                (* Math.round(heapTotal / 1024 / 1024) *)
  PORT : option string;            (* process.env.PORT *)
  (* ./utils and the optional modules *)
  GenerateShop : M JsValue;
  HandleNotFound : Context -> M Response;
  Connect : Settled;
  LoadRoutes : Settled;
  loadedRoutes : list RouteEntry;  (* what LoadRoutes(app) registers *)
  importBot : Settled;
  importMatchmaker : Settled
}.

Section Gateway.

Variable host : Host.

(** ** Error normaliser (lines 69-89) *)

Definition onError (err : Failure) (c : Context) : M Response :=
  match err with
  | HTTPException st message =>
      let* date := Date_now in
      c_json (JObj [("error", JStr message);
                    ("status", JNum st);
                    ("timestamp", JStr (toISOString host date))])
             st []
  | Thrown _ | NotAnError _ =>
      let* date := Date_now in
      c_json (JObj [("error", JStr "Internal server error");
                    ("status", JNum 500);
                    ("timestamp", JStr (toISOString host date))])
             500 []
  end.

(** ** Built-in handlers (lines 95-136) *)

(** lines 95-102 *)
Definition catalogHandler (c : Context) : M Response :=
  let* catalog := GenerateShop host in
  if negb (truthy catalog) then
    throw (HTTPException 500 "Failed to generate shop catalog")
  else
    c_json catalog 200
           [("Cache-Control", "public, max-age=300");
            ("X-Content-Type-Options", "nosniff")].

(** lines 105-113; [!playerId] holds for [undefined] and for the empty
    string. *)
Definition statsHandler (c : Context) : M Response :=
  match param c "playerId" with
  | None => throw (HTTPException 400 "Invalid player ID")
  | Some playerId =>
      if String.eqb playerId "" || (String.length playerId <? 3)%nat then
        throw (HTTPException 400 "Invalid player ID")
      else
        let* date := Date_now in
        c_json (JObj [("playerId", JStr playerId);
                      ("stats", JObj [("wins", JNum 0);
                                      ("kills", JNum 0);
                                      ("matches", JNum 0)]);
                      ("lastUpdated", JStr (toISOString host date))])
               200 []
  end.

(** lines 116-128 *)
Definition rootHandler (c : Context) : M Response :=
  let* date := Date_now in
  c_json (JObj [("message", JStr "Universal Backend Online");
                ("status", JStr "healthy");
                ("uptime", JNum (uptimeSeconds host));
                ("memory", JObj [("used", JNum (heapUsedMiB host));
                                 ("total", JNum (heapTotalMiB host))]);
                ("timestamp", JStr (toISOString host date));
                ("version", JStr "2.0.0")])
         200 [].

(** lines 130-136 *)
Definition healthHandler (c : Context) : M Response :=
  let* date := Date_now in
  c_json (JObj [("status", JStr "healthy");
                ("database", JStr "connected");
                ("timestamp", JStr (toISOString host date))])
         200 [].

(** [app.get(path, gate, handler)]: the gate runs first and the handler only
    when the gate calls [next()]. *)
Definition gated (gate : Context -> Step) (handler : Context -> M Response)
    (c : Context) : M Response :=
  match gate c with
  | Next => handler c
  | Respond r => ret r
  end.

(** line 104 *)
Definition statsRoute : Context -> M Response := gated requireAuth statsHandler.

(** ** Dispatch *)

Record App : Type := mkApp {
  routes : list RouteEntry;              (* in registration order *)
  notFound : Context -> M Response
}.

Fixpoint matchPath (pattern : list Segment) (p : list string)
    : option (list (string * string)) :=
  match pattern, p with
  | [], [] => Some []
  | Lit s :: pattern', seg :: p' =>
      if String.eqb s seg then matchPath pattern' p' else None
  | Param name :: pattern', seg :: p' =>
      if String.eqb seg "" then None
      else option_map (cons (name, seg)) (matchPath pattern' p')
  | _, _ => None
  end.

(** The first registered route that matches the routing method and the path
    answers; without one, the not-found handler does. *)
Fixpoint dispatchAs (routing : string) (rs : list RouteEntry)
    (fallback : Context -> M Response) (r : Request) : M Response :=
  match rs with
  | [] => fallback {| req := r; params := [] |}
  | entry :: rs' =>
      if String.eqb (routeMethod entry) routing then
        match matchPath (routePattern entry) (path r) with
        | Some ps => routeHandler entry {| req := r; params := ps |}
        | None => dispatchAs routing rs' fallback r
        end
      else dispatchAs routing rs' fallback r
  end.

Definition dispatch (rs : list RouteEntry) (fallback : Context -> M Response)
    (r : Request) : M Response :=
  dispatchAs (method r) rs fallback r.

(** One level of the framework's chain: the handler of a level runs inside
    try/catch; a thrown [Error] goes to the error handler of line 69, whose
    response becomes the answer, and any other thrown value is thrown on. *)
Definition caught (c : Context) (m : M Response) : M Response :=
  try_catch m (fun err => if isError err then onError err c else throw err).

(** A stage registered with [app.use]: it answers, or continues with the
    rest of the chain. *)
Definition Middleware : Type := Context -> M Response -> M Response.

(** What the cors stage answers to an OPTIONS request, without calling
    [next()]. *)
Definition preflight : Response :=
  {| status := 204; body := JUndefined; headers := [] |}.

(** lines 53-61 *)
Definition corsStage : Middleware :=
  fun c next =>
    if String.eqb (method (req c)) "OPTIONS" then ret preflight else next.

(** lines 63-66: logger, secureHeaders, prettyJSON and timeout(30000) leave
    the choice of the response to the rest of the chain. *)
Definition loggerStage : Middleware := fun _ next => next.
Definition secureHeadersStage : Middleware := fun _ next => next.
Definition prettyJSONStage : Middleware := fun _ next => next.
Definition timeoutStage : Middleware := fun _ next => next.

(** line 67 *)
Definition rateLimitStage : Middleware :=
  fun c next =>
    let* step := rateLimit defaultWindowMs defaultMax c in
    match step with
    | Respond resp => ret resp
    | Next => next
    end.

(** The stages of lines 53-67, in registration order. *)
Definition globalStages : list Middleware :=
  [corsStage; loggerStage; secureHeadersStage; prettyJSONStage; timeoutStage;
   rateLimitStage].

Fixpoint compose (stages : list Middleware) (c : Context) (rest : M Response)
    : M Response :=
  match stages with
  | [] => rest
  | stage :: stages' => caught c (stage c (compose stages' c rest))
  end.

(** The global chain followed by the routes, matched under the given routing
    method. *)
Definition pipeline (routing : string) (app : App) (r : Request) : M Response :=
  let c := {| req := r; params := [] |} in
  compose globalStages c
    (caught c (dispatchAs routing (routes app) (notFound app) r)).

(** The response with its body dropped, as sent back to a HEAD request. *)
Definition noBody (resp : Response) : Response :=
  {| status := status resp; body := JUndefined; headers := headers resp |}.

(** [app.fetch]: a HEAD request runs the chain with the routes of GET and
    gets the resulting response without its body. *)
Definition fetch (app : App) (r : Request) : M Response :=
  let c := {| req := r; params := [] |} in
  if String.eqb (method r) "HEAD" then
    let* resp := caught c (pipeline "GET" app r) in
    ret (noBody resp)
  else caught c (pipeline (method r) app r).

(** ** Start-up (lines 91-164) *)

Inductive Event : Type :=
| EvProcessOn (name : string)
| EvConnect
| EvLoadRoutes
| EvGet (pattern : list Segment)
| EvNotFound
| EvImport (module : string)
| EvLog (line : string) (value : Z)
| EvExportDefault (port : Z).

Record Process : Type := mkProcess {
  app : App;
  trace : list Event        (* oldest first *)
}.

Definition L : Type -> Type := SE Process.

Definition emit (e : Event) : L unit :=
  fun p => (Returns tt, {| app := app p; trace := (trace p ++ [e])%list |}).

Definition await (s : Settled) : L unit :=
  match s with
  | Resolved => ret tt
  | Rejected e => throw e
  end.

Definition register (entries : list RouteEntry) : L unit :=
  fun p =>
    (Returns tt,
     {| app := {| routes := (routes (app p) ++ entries)%list;
                  notFound := notFound (app p) |};
        trace := trace p |}).

Definition app_get (pattern : list Segment) (handler : Context -> M Response)
    : L unit :=
  let* _ := emit (EvGet pattern) in
  register [{| routeMethod := "GET";
               routePattern := pattern;
               routeHandler := handler |}].

Definition app_notFound (handler : Context -> M Response) : L unit :=
  let* _ := emit EvNotFound in
  fun p =>
    (Returns tt,
     {| app := {| routes := routes (app p); notFound := handler |};
        trace := trace p |}).

Definition catalogPattern : list Segment :=
  [Lit "fortnite"; Lit "api"; Lit "storefront"; Lit "v2"; Lit "catalog"].
Definition statsPattern : list Segment :=
  [Lit "fortnite"; Lit "api"; Lit "player"; Param "playerId"; Lit "stats"].
Definition rootPattern : list Segment := [].
Definition healthPattern : list Segment := [Lit "health"].

(** The routes of lines 95-136. *)
Definition builtins : list RouteEntry :=
  [ {| routeMethod := "GET"; routePattern := catalogPattern;
       routeHandler := catalogHandler |};
    {| routeMethod := "GET"; routePattern := statsPattern;
       routeHandler := statsRoute |};
    {| routeMethod := "GET"; routePattern := rootPattern;
       routeHandler := rootHandler |};
    {| routeMethod := "GET"; routePattern := healthPattern;
       routeHandler := healthHandler |} ].

(** lines 91-139 *)
Definition startServer : L unit :=
  let* _ := emit EvConnect in
  let* _ := await (Connect host) in
  let* _ := emit EvLoadRoutes in
  let* _ := await (LoadRoutes host) in
  let* _ := register (loadedRoutes host) in
  let* _ := app_get catalogPattern catalogHandler in
  let* _ := app_get statsPattern statsRoute in
  let* _ := app_get rootPattern rootHandler in
  let* _ := app_get healthPattern healthHandler in
  app_notFound (HandleNotFound host).

(** [try { await import(module) } catch {}] *)
Definition tryImport (module : string) (outcome : Settled) : L unit :=
  try_catch
    (let* _ := emit (EvImport module) in await outcome)
    (fun _ => ret tt).

Record Server : Type := mkServer {
  port : Z;
  served : App
}.

(** lines 141-164, the module body after the registrations on [app] *)
Definition main : L Server :=
  let* _ := emit (EvProcessOn "SIGTERM") in
  let* _ := emit (EvProcessOn "SIGINT") in
  let* _ := emit (EvProcessOn "unhandledRejection") in
  let* _ := emit (EvProcessOn "uncaughtException") in
  let* _ := startServer in
  let* _ := tryImport "./bot/index" (importBot host) in
  let* _ := tryImport "./matchmaker/index" (importMatchmaker host) in
  let port := parseInt host (orElse (PORT host) "5595") in
  let* _ := emit (EvLog "[INFO] Universal Backend listening on port " port) in
  let* _ := emit (EvExportDefault port) in
  fun p => (Returns {| port := port; served := app p |}, p).

(** Hono's answer when no not-found handler has been registered. *)
Definition honoNotFound (c : Context) : M Response :=
  ret {| status := 404; body := JStr "404 Not Found"; headers := [] |}.

Definition newApp : App := {| routes := []; notFound := honoNotFound |}.

Definition boot : Result Server * Process :=
  main {| app := newApp; trace := [] |}.

(** ** Vocabulary of the properties *)

(** The app once [startServer] has run, when [LoadRoutes] added nothing. *)
Definition builtinApp : App :=
  {| routes := builtins; notFound := HandleNotFound host |}.

(** Does a route entry answer this request? *)
Definition claims (entry : RouteEntry) (r : Request) : bool :=
  String.eqb (routeMethod entry) (method r) &&
  match matchPath (routePattern entry) (path r) with
  | Some _ => true
  | None => false
  end.


End Gateway.

(** The runtime serves the default export, so traffic is accepted from the
    export of line 161 on. Is some optional module loaded after that
    point? *)
Definition isExport (e : Event) : bool :=
  match e with EvExportDefault _ => true | _ => false end.

Definition isImport (e : Event) : bool :=
  match e with EvImport _ => true | _ => false end.

Fixpoint importsAfterExport (tr : list Event) : bool :=
  match tr with
  | [] => false
  | e :: rest => (isExport e && existsb isImport rest) || importsAfterExport rest
  end.

(** ** Sample inputs *)

(** A host whose bot module fails to load and whose catalog is empty. *)
Definition sampleHost : Host :=
  {| toISOString := λ _, "2026-01-01T00:00:00.000Z";
     parseInt := λ _, 5595;
     uptimeSeconds := 12;
     heapUsedMiB := 30;
     heapTotalMiB := 64;
     PORT := None;
     GenerateShop := ret JNull;
     HandleNotFound := λ _, c_json (JObj [("error", JStr "Not found")]) 404 [];
     Connect := Resolved;
     LoadRoutes := Resolved;
     loadedRoutes := [];
     importBot := Rejected (Thrown (JStr "Cannot find module"));
     importMatchmaker := Resolved |}.

(** The same host with a catalog to offer. *)
Definition stockedHost : Host :=
  {| toISOString := toISOString sampleHost;
     parseInt := parseInt sampleHost;
     uptimeSeconds := 12;
     heapUsedMiB := 30;
     heapTotalMiB := 64;
     PORT := Some "8080";
     GenerateShop := ret (JObj [("storefronts", JArr [])]);
     HandleNotFound := HandleNotFound sampleHost;
     Connect := Resolved;
     LoadRoutes := Resolved;
     loadedRoutes := [];
     importBot := Resolved;
     importMatchmaker := Resolved |}.

Definition requestWith (m : string) (p : list string)
    (hs : list (string * string)) : Request :=
  {| method := m; path := p; reqHeaders := list_to_map hs |}.

Definition contextOf (r : Request) : Context := {| req := r; params := [] |}.

(** One request of another client, then 101 of "1.2.3.4", all within the
    same quarter of an hour. *)
Definition burst : list (string * Z) :=
  ("5.6.7.8", 1000) :: replicate 101 ("1.2.3.4", 2000).

(** A request whose CF-Connecting-IP header is there but empty. *)
Definition emptyCfContext : Context :=
  contextOf (requestWith "GET" []
               [("CF-Connecting-IP", ""); ("X-Forwarded-For", "1.2.3.4")]).

Definition cfContext (forwardedFor : string) : Context :=
  contextOf (requestWith "GET" []
               [("CF-Connecting-IP", "1.2.3.4"); ("X-Forwarded-For", forwardedFor)]).

Definition midnight : World :=
  {| rateLimitStore := ∅; clock := λ n, 1000 * Z.of_nat n; clockReads := 0 |}.

(** A world in which "1.2.3.4" has used up its quota and "5.6.7.8" has
    not. *)
Definition crowded : World :=
  {| rateLimitStore :=
       <["1.2.3.4" := {| count := 100; resetTime := 900000 |}]>
         (<["5.6.7.8" := {| count := 3; resetTime := 900000 |}]> ∅);
     clock := λ n, 1000 * Z.of_nat n;
     clockReads := 5 |}.

(** The same world a day later. *)
Definition nextDay : World :=
  {| rateLimitStore := rateLimitStore crowded;
     clock := λ n, 86400000 + 1000 * Z.of_nat n;
     clockReads := 5 |}.

Definition statsRequest (playerId : string) (hs : list (string * string))
    : Request :=
  requestWith "GET" ["fortnite"; "api"; "player"; playerId; "stats"] hs.

Definition statsContext (playerId : string) (hs : list (string * string))
    : Context :=
  {| req := statsRequest playerId hs; params := [("playerId", playerId)] |}.

Definition healthRequest : Request := requestWith "GET" ["health"] [].

Definition bearer : list (string * string) := [("Authorization", "Bearer t0k3n")].

Definition basic : list (string * string) := [("Authorization", "Basic dXNlcg==")].

Definition catalogRequest : Request :=
  requestWith "GET" ["fortnite"; "api"; "storefront"; "v2"; "catalog"] [].


(** ** Cross-origin configuration (line 56) *)

(** [s.split(',')]: the pieces between the commas, empty ones included; the
    empty string gives one empty piece. *)
Fixpoint split_comma (s : string) : list string :=
  match s with
  | EmptyString => [""]
  | String ch rest =>
      if Ascii.eqb ch ","%char then "" :: split_comma rest
      else
        match split_comma rest with
        | piece :: pieces => String ch piece :: pieces
        | [] => [String ch ""]
        end
  end.

(** [process.env.CORS_ORIGIN?.split(',') || ['*']]: an array is truthy, so
    the wildcard stands in for an unset variable only. *)
Definition corsOrigin (CORS_ORIGIN : option string) : list string :=
  match CORS_ORIGIN with
  | Some s => split_comma s
  | None => ["*"]
  end.

(** ** More vocabulary and sample inputs *)

(** Every stored counter lies between 1 and [max]. *)
Definition countsWithin (max : Z) (store : gmap string RateRecord) : Prop :=
  ∀ k record, store !! k = Some record → 1 ≤ count record ≤ max.

(** A host whose storage cannot be reached. *)
Definition downHost : Host :=
  {| toISOString := toISOString sampleHost;
     parseInt := parseInt sampleHost;
     uptimeSeconds := 0;
     heapUsedMiB := 30;
     heapTotalMiB := 64;
     PORT := None;
     GenerateShop := GenerateShop sampleHost;
     HandleNotFound := HandleNotFound sampleHost;
     Connect := Rejected (Thrown (JStr "ECONNREFUSED"));
     LoadRoutes := Resolved;
     loadedRoutes := [];
     importBot := Resolved;
     importMatchmaker := Resolved |}.

(** A host whose catalog generator fails with an error of its own. *)
Definition brokenShopHost : Host :=
  {| toISOString := toISOString sampleHost;
     parseInt := parseInt sampleHost;
     uptimeSeconds := 12;
     heapUsedMiB := 30;
     heapTotalMiB := 64;
     PORT := Some "";
     GenerateShop := throw (HTTPException 503 "Shop offline");
     HandleNotFound := HandleNotFound sampleHost;
     Connect := Resolved;
     LoadRoutes := Resolved;
     loadedRoutes := [];
     importBot := Resolved;
     importMatchmaker := Resolved |}.

Definition maintenance : RouteEntry :=
  {| routeMethod := "GET";
     routePattern := [Lit "health"];
     routeHandler := λ _, c_json (JObj [("status", JStr "maintenance")]) 503 [] |}.

(** A host whose route loader registers its own GET /health. *)
Definition shadowHost : Host :=
  {| toISOString := toISOString sampleHost;
     parseInt := parseInt sampleHost;
     uptimeSeconds := 12;
     heapUsedMiB := 30;
     heapTotalMiB := 64;
     PORT := Some "8080";
     GenerateShop := GenerateShop sampleHost;
     HandleNotFound := HandleNotFound sampleHost;
     Connect := Resolved;
     LoadRoutes := Resolved;
     loadedRoutes := [maintenance];
     importBot := Resolved;
     importMatchmaker := Resolved |}.

(** Two clients taking turns, three requests each. *)
Definition turns : list (string * Z) :=
  [("1.2.3.4", 1000); ("5.6.7.8", 1500); ("1.2.3.4", 2000);
   ("5.6.7.8", 2500); ("1.2.3.4", 3000); ("5.6.7.8", 999999999)].

Definition rootRequest : Request := requestWith "GET" [] bearer.


Fixpoint contains_comma (s : string) : bool :=
  match s with
  | EmptyString => false
  | String ch rest => Ascii.eqb ch ","%char || contains_comma rest
  end.

(** ** What becomes of a handler's outcome *)

(** The generic answer of the error handler, built in world [w]. *)
Definition internalError (host : Host) (w : World) : Result Response * World :=
  (Returns {| status := 500;
              body := JObj [("error", JStr "Internal server error");
                            ("status", JNum 500);
                            ("timestamp", JStr (toISOString host (now w)))];
              headers := [] |},
   tick w).

(** The outcome of a handler as seen from outside two or more levels of
    the chain: a response stays; an [HTTPException] whose status can carry a
    body becomes its envelope; any other [Error] becomes the generic answer,
    one clock reading later when it is the error handler's own failure to
    build the envelope; a value that is not an [Error] is thrown on. *)
Definition settle (host : Host) (outcome : Result Response * World)
    : Result Response * World :=
  match outcome with
  | (Returns resp, w) => (Returns resp, w)
  | (Throws (HTTPException st message), w) =>
      if validStatus st then
        (Returns {| status := st;
                    body := JObj [("error", JStr message);
                                  ("status", JNum st);
                                  ("timestamp", JStr (toISOString host (now w)))];
                    headers := [] |},
         tick w)
      else internalError host (tick w)
  | (Throws (Thrown _), w) => internalError host w
  | (Throws (NotAnError value), w) => (Throws (NotAnError value), w)
  end.

(** The chain past the cors stage: the limiter's answer, or the settled
    outcome of the route matched under the given routing method. *)
Definition routed (host : Host) (routing : string) (application : App)
    (r : Request) (w : World) : Result Response * World :=
  match rateLimit defaultWindowMs defaultMax {| req := r; params := [] |} w with
  | (Returns Next, w1) =>
      settle host
        (dispatchAs routing (routes application) (notFound application) r w1)
  | (Returns (Respond resp), w1) => (Returns resp, w1)
  | (Throws e, w1) => (Throws e, w1)
  end.

(** A host whose catalog generator throws a string. *)
Definition throwingHost : Host :=
  {| toISOString := toISOString sampleHost;
     parseInt := parseInt sampleHost;
     uptimeSeconds := 12;
     heapUsedMiB := 30;
     heapTotalMiB := 64;
     PORT := None;
     GenerateShop := throw (NotAnError (JStr "boom"));
     HandleNotFound := HandleNotFound sampleHost;
     Connect := Resolved;
     LoadRoutes := Resolved;
     loadedRoutes := [];
     importBot := Resolved;
     importMatchmaker := Resolved |}.




Definition preflightRequest : Request :=
  requestWith "OPTIONS" ["health"] [("CF-Connecting-IP", "1.2.3.4")].

(** * Properties *)

(** ** The rate limiter *)

Section RateLimiter.

Implicit Types (store : gmap string RateRecord) (key k : string).

(** The middleware is [rateLimitAt] taken at the next clock reading; it
    never throws. *)
Lemma rateLimit_at windowMs max c w :
  rateLimit windowMs max c w =
    (Returns (rateLimitAt windowMs max (clientKey c) (now w) (rateLimitStore w)).1,
     withStore (rateLimitAt windowMs max (clientKey c) (now w) (rateLimitStore w)).2
               (tick w)).
Proof.
  unfold rateLimit, rateLimitAt, bind, Date_now, getStore, putStore, ret.
  cbn [rateLimitStore tick].
  destruct (rateLimitStore w !! clientKey c) as [record |]; [| reflexivity].
  destruct (now w >? resetTime record); [reflexivity |].
  destruct (count record >=? max); reflexivity.
Qed.

Lemma rateLimitAt_fresh windowMs max key t store :
  store !! key = None ∨
    (∃ record, store !! key = Some record ∧ resetTime record < t) →
  rateLimitAt windowMs max key t store =
    (Next, <[key := {| count := 1; resetTime := t + windowMs |}]> store).
Proof.
  intros [Hnone | (record & Hsome & Hpast)]; unfold rateLimitAt.
  - rewrite Hnone. reflexivity.
  - rewrite Hsome.
    destruct (Z.gtb_spec t (resetTime record)); [reflexivity | lia].
Qed.

Lemma rateLimitAt_counted windowMs max key t store record :
  store !! key = Some record → t ≤ resetTime record → count record < max →
  rateLimitAt windowMs max key t store =
    (Next, <[key := {| count := count record + 1;
                       resetTime := resetTime record |}]> store).
Proof.
  intros Hsome Hin Hlt. unfold rateLimitAt. rewrite Hsome.
  destruct (Z.gtb_spec t (resetTime record)); [lia |].
  destruct (Z.geb_spec (count record) max); [lia | reflexivity].
Qed.

Lemma rateLimitAt_rejected windowMs max key t store record :
  store !! key = Some record → t ≤ resetTime record → max ≤ count record →
  rateLimitAt windowMs max key t store = (Respond tooManyRequests, store).
Proof.
  intros Hsome Hin Hge. unfold rateLimitAt. rewrite Hsome.
  destruct (Z.gtb_spec t (resetTime record)); [lia |].
  destruct (Z.geb_spec (count record) max); [reflexivity | lia].
Qed.

(** A decision writes at most the record of its own key. *)
Lemma rateLimitAt_frame windowMs max key t store k :
  k ≠ key → (rateLimitAt windowMs max key t store).2 !! k = store !! k.
Proof.
  intros Hne. unfold rateLimitAt.
  destruct (store !! key) as [record |]; cbn.
  - destruct (t >? resetTime record); cbn.
    + by rewrite lookup_insert_ne.
    + destruct (count record >=? max); cbn; [done |].
      by rewrite lookup_insert_ne.
  - by rewrite lookup_insert_ne.
Qed.

(** A decision and the record it leaves depend on the store through the
    record of its own key only. *)
Lemma rateLimitAt_local windowMs max key t store1 store2 :
  store1 !! key = store2 !! key →
  (rateLimitAt windowMs max key t store1).1 = (rateLimitAt windowMs max key t store2).1 ∧
  (rateLimitAt windowMs max key t store1).2 !! key =
    (rateLimitAt windowMs max key t store2).2 !! key.
Proof.
  intros Heq. unfold rateLimitAt. rewrite <- Heq.
  destruct (store1 !! key) as [record |] eqn:Hrec; cbn.
  - destruct (t >? resetTime record); cbn.
    + by rewrite !lookup_insert_eq.
    + destruct (count record >=? max); cbn.
      * split; [done | congruence].
      * by rewrite !lookup_insert_eq.
  - by rewrite !lookup_insert_eq.
Qed.

(** The answers to client [k] are those of a run without the other
    clients. *)
Lemma decisionsOf_alone windowMs max k arrivals : ∀ store1 store2,
  store1 !! k = store2 !! k →
  decisionsOf k arrivals (rateLimitRun windowMs max arrivals store1).1 =
    (rateLimitRun windowMs max (map (pair k) (timesOf k arrivals)) store2).1.
Proof.
  induction arrivals as [| [key t] rest IH]; intros store1 store2 Heq.
  - reflexivity.
  - cbn [rateLimitRun timesOf].
    destruct (rateLimitAt windowMs max key t store1) as [step store1'] eqn:Hstep1.
    destruct (rateLimitRun windowMs max rest store1') as [steps store1''] eqn:Hrest.
    cbn [fst decisionsOf].
    destruct (String.eqb_spec key k) as [-> | Hne].
    + cbn [map rateLimitRun].
      destruct (rateLimitAt windowMs max k t store2) as [step2 store2'] eqn:Hstep2.
      destruct (rateLimitRun windowMs max _ store2') as [steps2 store2''] eqn:Hrest2.
      cbn [fst].
      destruct (rateLimitAt_local windowMs max k t store1 store2 Heq) as [Hstep Hrec].
      rewrite Hstep1, Hstep2 in Hstep, Hrec. cbn in Hstep, Hrec. subst step2.
      f_equal.
      specialize (IH store1' store2' Hrec).
      rewrite Hrest, Hrest2 in IH. exact IH.
    + assert (Hfr : store1' !! k = store2 !! k).
      { pose proof (rateLimitAt_frame windowMs max key t store1 k) as Hf.
        rewrite Hstep1 in Hf. cbn in Hf. rewrite Hf; [exact Heq | congruence]. }
      specialize (IH store1' store2 Hfr). rewrite Hrest in IH. exact IH.
Qed.

(** Inside a window that already counts [n] requests, the next [max - n]
    arrivals pass and the later ones are turned away. *)
Lemma rateLimitRun_in_window windowMs max k ts : ∀ store n reset,
  store !! k = Some {| count := n; resetTime := reset |} →
  Forall (λ t, t ≤ reset) ts →
  n ≤ max →
  (rateLimitRun windowMs max (map (pair k) ts) store).1 =
    (replicate (Z.to_nat (max - n) `min` length ts) Next ++
     replicate (length ts - Z.to_nat (max - n)) (Respond tooManyRequests))%list.
Proof.
  induction ts as [| t ts IH]; intros store n reset Hrec Hin Hn.
  - rewrite Nat.min_0_r. reflexivity.
  - inversion Hin as [| ? ? Ht Hts]; subst.
    cbn [map rateLimitRun].
    destruct (Z.eq_dec n max) as [-> | Hlt].
    + rewrite (rateLimitAt_rejected windowMs max k t store _ Hrec); cbn; [| lia | lia].
      specialize (IH store max reset Hrec Hts ltac:(lia)).
      destruct (rateLimitRun windowMs max (map (pair k) ts) store) as [steps store'].
      cbn [fst] in *. rewrite IH.
      replace (Z.to_nat (max - max)) with 0%nat by lia.
      cbn. rewrite Nat.sub_0_r. reflexivity.
    + rewrite (rateLimitAt_counted windowMs max k t store _ Hrec); cbn; [| lia | lia].
      set (store' := <[k := _]> store).
      specialize (IH store' (n + 1) reset ltac:(apply lookup_insert_eq) Hts
                    ltac:(lia)).
      destruct (rateLimitRun windowMs max (map (pair k) ts) store') as [steps store''].
      cbn [fst] in *. rewrite IH.
      replace (Z.to_nat (max - n)) with (S (Z.to_nat (max - (n + 1)))) by lia.
      reflexivity.
Qed.

End RateLimiter.

(** C1. With the default configuration (a window of 15 minutes, at most 100
    requests), when a client opens a window and sends 100 further requests
    before it closes, requests 1 to 100 are handed on and request 101 is
    answered 429 with body [{ error: "Too many requests" }]; and for every
    configuration, a client that sends at most [max] requests within one
    window has all of them handed on. Requests of other clients may
    arrive in between. *)
Theorem rateLimit_quota k (store : gmap string RateRecord) arrivals t0 ts :
  timesOf k arrivals = t0 :: ts →
  store !! k = None ∨
    (∃ record, store !! k = Some record ∧ resetTime record < t0) →
  (length ts = 100%nat →
   Forall (λ t, t ≤ t0 + defaultWindowMs) ts →
   decisionsOf k arrivals
     (rateLimitRun defaultWindowMs defaultMax arrivals store).1 =
     (replicate 100 Next ++
      [Respond {| status := 429;
                  body := JObj [("error", JStr "Too many requests")];
                  headers := [] |}])%list) ∧
  (∀ windowMs max,
     Z.of_nat (S (length ts)) ≤ max →
     Forall (λ t, t ≤ t0 + windowMs) ts →
     decisionsOf k arrivals (rateLimitRun windowMs max arrivals store).1 =
       replicate (S (length ts)) Next).
Proof.
  intros Htimes Hfresh.
  assert (Hrun : ∀ windowMs max,
    1 ≤ max → Forall (λ t, t ≤ t0 + windowMs) ts →
    decisionsOf k arrivals (rateLimitRun windowMs max arrivals store).1 =
      Next ::
      (replicate (Z.to_nat (max - 1) `min` length ts) Next ++
       replicate (length ts - Z.to_nat (max - 1))
         (Respond tooManyRequests))%list).
  { intros windowMs max Hmax Hin.
    rewrite (decisionsOf_alone windowMs max k arrivals store store eq_refl).
    rewrite Htimes. cbn [map rateLimitRun].
    rewrite (rateLimitAt_fresh windowMs max k t0 store Hfresh).
    set (store' := <[k := _]> store).
    pose proof (rateLimitRun_in_window windowMs max k ts store' 1 (t0 + windowMs)
                  ltac:(apply lookup_insert_eq) Hin Hmax) as Hwin.
    destruct (rateLimitRun windowMs max (map (pair k) ts) store') as [steps store''].
    cbn [fst] in *. by rewrite Hwin. }
  split.
  - intros Hlen Hin.
    rewrite (Hrun defaultWindowMs defaultMax ltac:(unfold defaultMax; lia) Hin).
    rewrite Hlen. reflexivity.
  - intros windowMs max Hmax Hin.
    rewrite (Hrun windowMs max ltac:(lia) Hin).
    replace (Z.to_nat (max - 1) `min` length ts)%nat with (length ts) by lia.
    replace (length ts - Z.to_nat (max - 1))%nat with 0%nat by lia.
    cbn. by rewrite app_nil_r.
Qed.

Lemma rateLimit_quota_witness :
  decisionsOf "1.2.3.4" burst
    (rateLimitRun defaultWindowMs defaultMax burst ∅).1 =
    (replicate 100 Next ++ [Respond tooManyRequests])%list ∧
  decisionsOf "5.6.7.8" burst (rateLimitRun 60000 5 burst ∅).1 = [Next].
Proof.
  split.
  - apply (rateLimit_quota "1.2.3.4" ∅ burst 2000 (replicate 100 2000)).
    + reflexivity.
    + left. reflexivity.
    + reflexivity.
    + apply Forall_replicate. unfold defaultWindowMs. lia.
  - apply (rateLimit_quota "5.6.7.8" ∅ burst 1000 []).
    + reflexivity.
    + left. reflexivity.
    + cbn. lia.
    + constructor.
Defined.

(** C2. When the store holds no record for the client key, or the clock
    reads past the record's reset time, the limiter replaces the record by
    one with count 1 and reset time [now + windowMs] and hands the request
    on; so the first request after a window has elapsed is admitted and
    leaves the counter at 1. *)
Theorem rateLimit_new_window windowMs max c w :
  rateLimitStore w !! clientKey c = None ∨
    (∃ record, rateLimitStore w !! clientKey c = Some record ∧
               resetTime record < now w) →
  ∃ w',
    rateLimit windowMs max c w = (Returns Next, w') ∧
    rateLimitStore w' =
      <[clientKey c := {| count := 1; resetTime := now w + windowMs |}]>
        (rateLimitStore w) ∧
    rateLimitStore w' !! clientKey c =
      Some {| count := 1; resetTime := now w + windowMs |}.
Proof.
  intros Hfresh. rewrite rateLimit_at.
  rewrite (rateLimitAt_fresh windowMs max _ _ _ Hfresh). cbn [fst snd].
  eexists. split; [reflexivity |]. cbn. split; [reflexivity |].
  apply lookup_insert_eq.
Qed.

Lemma rateLimit_new_window_witness :
  ∃ w',
    rateLimit defaultWindowMs defaultMax (cfContext "9.9.9.9") nextDay =
      (Returns Next, w') ∧
    rateLimitStore w' =
      <["1.2.3.4" := {| count := 1; resetTime := 86405000 + 900000 |}]>
        (rateLimitStore nextDay) ∧
    rateLimitStore w' !! "1.2.3.4" =
      Some {| count := 1; resetTime := 86405000 + 900000 |}.
Proof.
  apply (rateLimit_new_window defaultWindowMs defaultMax
           (cfContext "9.9.9.9") nextDay).
  right. exists {| count := 100; resetTime := 900000 |}.
  split; [reflexivity | vm_compute; reflexivity].
Defined.

(** C9. A rejection (the stored count has reached [max] and the window has
    not elapsed) leaves the store as it was, so the client's record keeps
    its count and its reset time; and whatever the decision, the records of
    all other client keys are what they were. *)
Theorem rateLimit_frame windowMs max c w :
  (∀ record,
     rateLimitStore w !! clientKey c = Some record →
     now w ≤ resetTime record →
     max ≤ count record →
     ∃ w',
       rateLimit windowMs max c w = (Returns (Respond tooManyRequests), w') ∧
       rateLimitStore w' = rateLimitStore w ∧
       rateLimitStore w' !! clientKey c = Some record) ∧
  (∀ k,
     k ≠ clientKey c →
     rateLimitStore (rateLimit windowMs max c w).2 !! k =
       rateLimitStore w !! k).
Proof.
  split.
  - intros record Hrec Hin Hfull. rewrite rateLimit_at.
    rewrite (rateLimitAt_rejected windowMs max _ _ _ record Hrec Hin Hfull).
    cbn [fst snd]. eexists. split; [reflexivity |]. cbn. auto.
  - intros k Hne. rewrite rateLimit_at. cbn.
    by apply rateLimitAt_frame.
Qed.

Lemma rateLimit_frame_witness :
  (∃ w',
     rateLimit defaultWindowMs defaultMax (cfContext "9.9.9.9") crowded =
       (Returns (Respond tooManyRequests), w') ∧
     rateLimitStore w' = rateLimitStore crowded ∧
     rateLimitStore w' !! "1.2.3.4" =
       Some {| count := 100; resetTime := 900000 |}) ∧
  rateLimitStore
    (rateLimit defaultWindowMs defaultMax (cfContext "9.9.9.9") crowded).2
    !! "5.6.7.8" = rateLimitStore crowded !! "5.6.7.8".
Proof.
  pose proof (rateLimit_frame defaultWindowMs defaultMax
                (cfContext "9.9.9.9") crowded) as [Hreject Hothers].
  split.
  - apply (Hreject {| count := 100; resetTime := 900000 |}).
    + reflexivity.
    + vm_compute. discriminate.
    + vm_compute. discriminate.
  - apply Hothers. discriminate.
Defined.

(** C10, as the code has it. The client key is the CF-Connecting-IP header
    when that header is present and not empty, otherwise the
    X-Forwarded-For header when present and not empty, otherwise
    "anonymous"; so two requests that carry the same non-empty
    CF-Connecting-IP get the same key, and the same decision against the
    same store, whatever their X-Forwarded-For headers say. *)
Theorem clientKey_source c :
  (∀ v, header c "CF-Connecting-IP" = Some v → v ≠ "" → clientKey c = v) ∧
  (∀ v,
     header c "CF-Connecting-IP" = None ∨
       header c "CF-Connecting-IP" = Some "" →
     header c "X-Forwarded-For" = Some v → v ≠ "" → clientKey c = v) ∧
  (header c "CF-Connecting-IP" = None ∨
     header c "CF-Connecting-IP" = Some "" →
   header c "X-Forwarded-For" = None ∨
     header c "X-Forwarded-For" = Some "" →
   clientKey c = "anonymous") ∧
  (∀ c' v,
     header c "CF-Connecting-IP" = Some v →
     header c' "CF-Connecting-IP" = Some v →
     v ≠ "" →
     clientKey c = clientKey c' ∧
     ∀ windowMs max w,
       rateLimit windowMs max c w = rateLimit windowMs max c' w).
Proof.
  assert (Hcf : ∀ c0 v, header c0 "CF-Connecting-IP" = Some v → v ≠ "" →
                        clientKey c0 = v).
  { intros c0 v Hv Hne. unfold clientKey. rewrite Hv. cbn.
    destruct (String.eqb_spec v ""); [contradiction | reflexivity]. }
  repeat split.
  - apply Hcf.
  - intros v Hcf0 Hxff Hne. unfold clientKey. rewrite Hxff.
    destruct Hcf0 as [-> | ->]; cbn;
      (destruct (String.eqb_spec v ""); [contradiction | reflexivity]).
  - intros Hcf0 Hxff. unfold clientKey.
    destruct Hcf0 as [-> | ->], Hxff as [-> | ->]; reflexivity.
  - rewrite (Hcf c v), (Hcf c' v); auto.
  - intros windowMs max w. rewrite !rateLimit_at.
    rewrite (Hcf c v), (Hcf c' v); auto.
Qed.

Lemma clientKey_source_witness :
  clientKey (cfContext "9.9.9.9") = "1.2.3.4" ∧
  clientKey (cfContext "9.9.9.9") = clientKey (cfContext "6.6.6.6") ∧
  rateLimit defaultWindowMs defaultMax (cfContext "9.9.9.9") crowded =
    rateLimit defaultWindowMs defaultMax (cfContext "6.6.6.6") crowded.
Proof.
  pose proof (clientKey_source (cfContext "9.9.9.9"))
    as (Hcf & _ & _ & Hsame).
  split; [| split].
  - apply Hcf; [reflexivity | discriminate].
  - apply (Hsame (cfContext "6.6.6.6") "1.2.3.4");
      [reflexivity | reflexivity | discriminate].
  - apply (Hsame (cfContext "6.6.6.6") "1.2.3.4");
      [reflexivity | reflexivity | discriminate].
Defined.

(** C10 as the specification words it fails: a CF-Connecting-IP header that
    is present but empty is passed over, and the key comes from
    X-Forwarded-For. *)
Lemma clientKey_empty_cf :
  header emptyCfContext "CF-Connecting-IP" = Some "" ∧
  clientKey emptyCfContext = "1.2.3.4" ∧
  clientKey emptyCfContext ≠ "".
Proof. repeat split. discriminate. Qed.

(** ** The framework's chain *)

Section Chain.

Variable host : Host.

Lemma c_json_valid b st hs :
  validStatus st = true → c_json b st hs = ret (jsonResponse b st hs).
Proof. intros Hvalid. unfold c_json. by rewrite Hvalid. Qed.

(** The error handler answers an [Error] that is not an [HTTPException];
    handed an [HTTPException] whose status cannot carry a body, it throws an
    [Error] of that kind itself. *)
Lemma onError_structured st message c w :
  validStatus st = true →
  onError host (HTTPException st message) c w =
    (Returns {| status := st;
                body := JObj [("error", JStr message);
                              ("status", JNum st);
                              ("timestamp", JStr (toISOString host (now w)))];
                headers := [] |},
     tick w).
Proof.
  intros Hvalid. unfold onError, bind, Date_now.
  by rewrite (c_json_valid _ _ _ Hvalid).
Qed.

Lemma onError_unstructured detail c w :
  onError host (Thrown detail) c w = internalError host w.
Proof. reflexivity. Qed.

Lemma onError_refused st message c w :
  validStatus st = false →
  ∃ detail, onError host (HTTPException st message) c w =
              (Throws (Thrown detail), tick w).
Proof.
  intros Hvalid. unfold onError, bind, Date_now, c_json. rewrite Hvalid.
  destruct ((200 <=? st) && (st <=? 599)); eexists; reflexivity.
Qed.

(** Two levels settle the outcome of what runs below them. *)
Lemma caught_caught c (m : M Response) w :
  caught host c (caught host c m) w = settle host (m w).
Proof.
  unfold caught, try_catch.
  destruct (m w) as [[resp | [st message | detail | value]] w1]; cbn [isError settle].
  - reflexivity.
  - destruct (validStatus st) eqn:Hvalid.
    + by rewrite (onError_structured st message c w1 Hvalid).
    + destruct (onError_refused st message c w1 Hvalid) as [detail ->].
      reflexivity.
  - reflexivity.
  - reflexivity.
Qed.

(** A level depends on the computation below it through its outcome, and
    leaves a settled outcome as it is. *)
Lemma caught_settled c (m : M Response) w outcome :
  m w = settle host outcome → caught host c m w = settle host outcome.
Proof.
  intros Hm. unfold caught, try_catch. rewrite Hm.
  destruct outcome as [[resp | [st message | detail | value]] w1];
    cbn [settle]; try reflexivity.
  destruct (validStatus st); reflexivity.
Qed.

Lemma settle_settle outcome :
  settle host (settle host outcome) = settle host outcome.
Proof.
  destruct outcome as [[resp | [st message | detail | value]] w1];
    cbn [settle]; try reflexivity.
  destruct (validStatus st); reflexivity.
Qed.

Lemma routed_settled routing application r w :
  routed host routing application r w =
    settle host (routed host routing application r w).
Proof.
  unfold routed. rewrite rateLimit_at. cbn [fst].
  destruct (rateLimitAt _ _ _ _ _).1; [| reflexivity].
  by rewrite settle_settle.
Qed.

(** Under the levels of the global stages, every request but an OPTIONS one
    gets the limiter's answer or the settled outcome of its route. *)
Lemma pipeline_routed routing application r w :
  method r ≠ "OPTIONS" →
  caught host {| req := r; params := [] |} (pipeline host routing application r) w =
    routed host routing application r w.
Proof.
  intros Hmethod.
  set (c := {| req := r; params := [] |}).
  assert (Hlimiter :
    caught host c
      (rateLimitStage c
         (caught host c
            (dispatchAs routing (routes application) (notFound application) r))) w =
    routed host routing application r w).
  { unfold routed. fold c. unfold caught at 1. unfold try_catch, rateLimitStage, bind.
    rewrite rateLimit_at. cbn [fst snd].
    destruct (rateLimitAt _ _ _ _ _).1 as [| resp]; [| reflexivity].
    fold (try_catch (caught host c
            (dispatchAs routing (routes application) (notFound application) r))
            (λ err, if isError err then onError host err c else throw err)).
    fold (caught host c (caught host c
            (dispatchAs routing (routes application) (notFound application) r))).
    apply caught_caught. }
  rewrite routed_settled in Hlimiter |- *.
  unfold pipeline, globalStages. cbn [compose]. fold c.
  unfold corsStage. replace (method (req c)) with (method r) by reflexivity.
  destruct (String.eqb_spec (method r) "OPTIONS") as [Heq | _]; [contradiction |].
  unfold loggerStage, secureHeadersStage, prettyJSONStage, timeoutStage.
  do 6 apply caught_settled. exact Hlimiter.
Qed.

Lemma fetch_routed application r w :
  method r ≠ "OPTIONS" → method r ≠ "HEAD" →
  fetch host application r w = routed host (method r) application r w.
Proof.
  intros Hoptions Hhead. unfold fetch.
  destruct (String.eqb_spec (method r) "HEAD") as [Heq | _]; [contradiction |].
  by apply pipeline_routed.
Qed.

Lemma fetch_head application r w :
  method r = "HEAD" →
  fetch host application r w =
    match routed host "GET" application r w with
    | (Returns resp, w') => (Returns (noBody resp), w')
    | (Throws e, w') => (Throws e, w')
    end.
Proof.
  intros Hhead. unfold fetch, bind. rewrite Hhead. cbn [String.eqb Ascii.eqb Bool.eqb].
  rewrite pipeline_routed; [| rewrite Hhead; discriminate].
  destruct (routed host "GET" application r w) as [[resp | e] w']; reflexivity.
Qed.

Lemma fetch_options application r w :
  method r = "OPTIONS" → fetch host application r w = (Returns preflight, w).
Proof.
  intros Hoptions. unfold fetch. rewrite Hoptions.
  cbn [String.eqb Ascii.eqb Bool.eqb].
  unfold pipeline, globalStages. cbn [compose]. unfold corsStage. cbn [req].
  rewrite Hoptions. reflexivity.
Qed.

(** A request that the limiter passes gets the settled outcome of its
    route, in the world the limiter left. *)
Lemma fetch_passed application r w :
  method r ≠ "OPTIONS" → method r ≠ "HEAD" →
  (rateLimit defaultWindowMs defaultMax (contextOf r) w).1 = Returns Next →
  fetch host application r w =
    settle host
      (dispatch (routes application) (notFound application) r
         (rateLimit defaultWindowMs defaultMax (contextOf r) w).2).
Proof.
  intros Hoptions Hhead Hpass. rewrite (fetch_routed _ _ _ Hoptions Hhead).
  unfold routed, dispatch. fold (contextOf r).
  destruct (rateLimit defaultWindowMs defaultMax (contextOf r) w)
    as [[[| resp] | e] w1]; cbn in Hpass |- *; congruence.
Qed.

End Chain.

Lemma dispatch_unclaimed loaded rest fallback r :
  forallb (λ entry, negb (claims entry r)) loaded = true →
  dispatch (loaded ++ rest) fallback r = dispatch rest fallback r.
Proof.
  unfold dispatch.
  induction loaded as [| entry loaded IH]; intros Hfree; [reflexivity |].
  cbn [forallb] in Hfree. apply andb_prop in Hfree as [Hentry Hloaded].
  rewrite <- app_comm_cons. cbn [dispatchAs]. unfold claims in Hentry.
  destruct (String.eqb (routeMethod entry) (method r)); [| by apply IH].
  destruct (matchPath (routePattern entry) (path r)); [discriminate |].
  by apply IH.
Qed.

Lemma dispatch_health host fallback r :
  method r = "GET" → path r = ["health"] →
  dispatch (builtins host) fallback r =
    healthHandler host {| req := r; params := [] |}.
Proof.
  intros Hmethod Hpath. unfold dispatch, builtins.
  cbn [dispatchAs routeMethod routePattern routeHandler].
  rewrite Hmethod, Hpath. reflexivity.
Qed.

Lemma dispatch_root host fallback r :
  method r = "GET" → path r = [] →
  dispatch (builtins host) fallback r =
    rootHandler host {| req := r; params := [] |}.
Proof.
  intros Hmethod Hpath. unfold dispatch, builtins.
  cbn [dispatchAs routeMethod routePattern routeHandler].
  rewrite Hmethod, Hpath. reflexivity.
Qed.

Lemma dispatch_stats host fallback r playerId :
  method r = "GET" →
  path r = ["fortnite"; "api"; "player"; playerId; "stats"] →
  playerId ≠ "" →
  dispatch (builtins host) fallback r =
    statsRoute host {| req := r; params := [("playerId", playerId)] |}.
Proof.
  intros Hmethod Hpath Hne. unfold dispatch, builtins.
  cbn [dispatchAs routeMethod routePattern routeHandler].
  rewrite Hmethod, Hpath. cbn.
  destruct (String.eqb_spec playerId ""); [contradiction | reflexivity].
Qed.

Lemma dispatch_catalog host fallback r :
  method r = "GET" →
  path r = ["fortnite"; "api"; "storefront"; "v2"; "catalog"] →
  dispatch (builtins host) fallback r =
    catalogHandler host {| req := r; params := [] |}.
Proof.
  intros Hmethod Hpath. unfold dispatch, builtins.
  cbn [dispatchAs routeMethod routePattern routeHandler].
  rewrite Hmethod, Hpath. reflexivity.
Qed.

Lemma get_is_routed r :
  method r = "GET" → method r ≠ "OPTIONS" ∧ method r ≠ "HEAD".
Proof. intros ->. split; discriminate. Qed.

(** ** Error normaliser, gate and built-in routes *)




(** C4. On the player-stats route, a request without an Authorization
    header, or with one that does not start with "Bearer ", is answered 401
    with body [{ error: "Unauthorized" }] whatever the path parameters are;
    a header that starts with "Bearer " passes the gate with no further
    check, and the handler runs. *)
Theorem requireAuth_gate host c :
  (header c "Authorization" = None ∨
     (∃ v, header c "Authorization" = Some v ∧
           startsWith v "Bearer " = false) →
   ∀ ps w,
     statsRoute host {| req := req c; params := ps |} w =
       (Returns {| status := 401;
                   body := JObj [("error", JStr "Unauthorized")];
                   headers := [] |},
        w)) ∧
  (∀ v,
     header c "Authorization" = Some v →
     startsWith v "Bearer " = true →
     requireAuth c = Next ∧
     ∀ ps w,
       statsRoute host {| req := req c; params := ps |} w =
         statsHandler host {| req := req c; params := ps |} w).
Proof.
  split.
  - intros Hbad ps w. unfold statsRoute, gated, requireAuth, header in *.
    cbn [req].
    destruct Hbad as [-> | (v & -> & ->)]; reflexivity.
  - intros v Hv Hbearer. unfold statsRoute, gated, requireAuth, header in *.
    cbn [req]. rewrite Hv, Hbearer. split; reflexivity.
Qed.

(** C5. Past the gate, the player-stats route throws the structured error
    (400, "Invalid player ID") when [playerId] has fewer than 3 characters,
    and otherwise answers 200 with [playerId] repeated unchanged in the
    body. *)
Theorem statsRoute_playerId host c playerId w :
  requireAuth c = Next →
  param c "playerId" = Some playerId →
  ((String.length playerId < 3)%nat →
   statsRoute host c w =
     (Throws (HTTPException 400 "Invalid player ID"), w)) ∧
  ((3 ≤ String.length playerId)%nat →
   statsRoute host c w =
     (Returns {| status := 200;
                 body := JObj [("playerId", JStr playerId);
                               ("stats", JObj [("wins", JNum 0);
                                               ("kills", JNum 0);
                                               ("matches", JNum 0)]);
                               ("lastUpdated",
                                JStr (toISOString host (now w)))];
                 headers := [] |},
      tick w)).
Proof.
  intros Hgate Hparam. unfold statsRoute, gated, statsHandler.
  rewrite Hgate, Hparam. split; intros Hlen.
  - destruct (Nat.ltb_spec (String.length playerId) 3); [| lia].
    rewrite orb_true_r. reflexivity.
  - destruct (Nat.ltb_spec (String.length playerId) 3); [lia |].
    destruct (String.eqb_spec playerId "") as [-> | _]; [cbn in Hlen; lia |].
    reflexivity.
Qed.

(** C6. On the catalog route, when the generator yields nothing (a falsy
    value: [undefined], [null], or an empty primitive) the handler throws
    exactly the structured error (500, "Failed to generate shop catalog");
    when it yields data (any other value, every object and array among
    them) the response is 200 with that value as its body and the headers
    Cache-Control: public, max-age=300 and X-Content-Type-Options:
    nosniff. *)
Theorem catalogHandler_result host c w catalog w1 :
  GenerateShop host w = (Returns catalog, w1) →
  (truthy catalog = false →
   catalogHandler host c w =
     (Throws (HTTPException 500 "Failed to generate shop catalog"), w1)) ∧
  (truthy catalog = true →
   catalogHandler host c w =
     (Returns {| status := 200;
                 body := catalog;
                 headers := [("Cache-Control", "public, max-age=300");
                             ("X-Content-Type-Options", "nosniff")] |},
      w1)) ∧
  (catalog = JUndefined ∨ catalog = JNull → truthy catalog = false) ∧
  ((∃ fields, catalog = JObj fields) ∨ (∃ items, catalog = JArr items) →
   truthy catalog = true).
Proof.
  intros Hshop. unfold catalogHandler, bind. rewrite Hshop.
  repeat split.
  - intros ->. reflexivity.
  - intros ->. reflexivity.
  - intros [-> | ->]; reflexivity.
  - intros [(fields & ->) | (items & ->)]; reflexivity.
Qed.

Lemma requireAuth_gate_witness :
  statsRoute sampleHost (statsContext "ab" basic) midnight =
    (Returns unauthorized, midnight) ∧
  statsRoute sampleHost (statsContext "player1" []) midnight =
    (Returns unauthorized, midnight) ∧
  requireAuth (statsContext "player1" bearer) = Next.
Proof.
  split; [| split].
  - apply (proj1 (requireAuth_gate sampleHost (statsContext "ab" basic))).
    right. exists "Basic dXNlcg==". split; reflexivity.
  - apply (proj1 (requireAuth_gate sampleHost (statsContext "player1" []))).
    left. reflexivity.
  - apply (proj2 (requireAuth_gate sampleHost (statsContext "player1" bearer))
             "Bearer t0k3n"); reflexivity.
Defined.

Lemma statsRoute_playerId_witness :
  statsRoute sampleHost (statsContext "ab" bearer) midnight =
    (Throws (HTTPException 400 "Invalid player ID"), midnight) ∧
  (statsRoute sampleHost (statsContext "abc" bearer) midnight).1 =
    Returns {| status := 200;
               body := JObj [("playerId", JStr "abc");
                             ("stats", JObj [("wins", JNum 0);
                                             ("kills", JNum 0);
                                             ("matches", JNum 0)]);
                             ("lastUpdated", JStr "2026-01-01T00:00:00.000Z")];
               headers := [] |}.
Proof.
  split.
  - apply (statsRoute_playerId sampleHost (statsContext "ab" bearer) "ab");
      [reflexivity | reflexivity | cbn; lia].
  - rewrite (proj2 (statsRoute_playerId sampleHost
                      (statsContext "abc" bearer) "abc" midnight
                      eq_refl eq_refl));
      [reflexivity | cbn; lia].
Defined.

Lemma catalogHandler_result_witness :
  catalogHandler sampleHost (contextOf catalogRequest) midnight =
    (Throws (HTTPException 500 "Failed to generate shop catalog"), midnight) ∧
  catalogHandler stockedHost (contextOf catalogRequest) midnight =
    (Returns {| status := 200;
                body := JObj [("storefronts", JArr [])];
                headers := [("Cache-Control", "public, max-age=300");
                            ("X-Content-Type-Options", "nosniff")] |},
     midnight).
Proof.
  split.
  - apply (catalogHandler_result sampleHost (contextOf catalogRequest)
             midnight JNull midnight); reflexivity.
  - apply (catalogHandler_result stockedHost (contextOf catalogRequest)
             midnight (JObj [("storefronts", JArr [])]) midnight);
      reflexivity.
Defined.

(** ** Failure responses of the whole app *)







(** ** Start-up *)

(** When the two required steps succeed the module body runs to its last
    statement, whatever the optional imports do. *)
Lemma boot_resolved host :
  Connect host = Resolved → LoadRoutes host = Resolved →
  boot host =
    (Returns
       {| port := parseInt host (orElse (PORT host) "5595");
          served := {| routes := loadedRoutes host ++ builtins host;
                       notFound := HandleNotFound host |} |},
     {| app := {| routes := loadedRoutes host ++ builtins host;
                  notFound := HandleNotFound host |};
        trace :=
          [EvProcessOn "SIGTERM"; EvProcessOn "SIGINT";
           EvProcessOn "unhandledRejection"; EvProcessOn "uncaughtException";
           EvConnect; EvLoadRoutes;
           EvGet catalogPattern; EvGet statsPattern;
           EvGet rootPattern; EvGet healthPattern; EvNotFound;
           EvImport "./bot/index"; EvImport "./matchmaker/index";
           EvLog "[INFO] Universal Backend listening on port "
             (parseInt host (orElse (PORT host) "5595"));
           EvExportDefault (parseInt host (orElse (PORT host) "5595"))] |}).
Proof.
  intros Hconnect Hload.
  unfold boot, main, startServer. rewrite Hconnect, Hload.
  cbv [tryImport app_get app_notFound register emit await bind try_catch ret
       throw app trace routes notFound newApp].
  destruct (importBot host), (importMatchmaker host);
    cbv beta iota; rewrite <- ?app_assoc; reflexivity.
Qed.

(** C8, as the code has it. When the storage connection and the route
    loading succeed, the module body attempts each optional import once,
    the bot first, and only then reaches the export that puts the server
    into service: the imports come before the server accepts traffic.
    Whether they succeed or fail changes nothing: the server is exported
    and answers GET /health with 200 (for a request the limiter admits and
    that no dynamically loaded route claims). *)
Theorem boot_sequence host :
  Connect host = Resolved →
  LoadRoutes host = Resolved →
  ∃ server p,
    boot host = (Returns server, p) ∧
    trace p =
      [EvProcessOn "SIGTERM"; EvProcessOn "SIGINT";
       EvProcessOn "unhandledRejection"; EvProcessOn "uncaughtException";
       EvConnect; EvLoadRoutes;
       EvGet catalogPattern; EvGet statsPattern;
       EvGet rootPattern; EvGet healthPattern; EvNotFound;
       EvImport "./bot/index"; EvImport "./matchmaker/index";
       EvLog "[INFO] Universal Backend listening on port " (port server);
       EvExportDefault (port server)] ∧
    importsAfterExport (trace p) = false ∧
    ∀ r w,
      method r = "GET" →
      path r = ["health"] →
      forallb (λ entry, negb (claims entry r)) (loadedRoutes host) = true →
      (rateLimit defaultWindowMs defaultMax (contextOf r) w).1 = Returns Next →
      (fetch host (served server) r w).1 =
        Returns {| status := 200;
                   body := JObj [("status", JStr "healthy");
                                 ("database", JStr "connected");
                                 ("timestamp",
                                  JStr (toISOString host (now (tick w))))];
                   headers := [] |}.
Proof.
  intros Hconnect Hload. eexists _, _.
  split; [apply (boot_resolved host Hconnect Hload) |].
  cbn [trace port served]. split; [reflexivity |]. split; [reflexivity |].
  intros r w Hmethod Hpath Hfree Hpass.
  destruct (get_is_routed r Hmethod) as [Hoptions Hhead].
  rewrite (fetch_passed host _ r w Hoptions Hhead Hpass).
  cbn [routes notFound].
  rewrite (dispatch_unclaimed _ _ _ _ Hfree).
  rewrite (dispatch_health host _ r Hmethod Hpath).
  rewrite rateLimit_at. reflexivity.
Qed.

Lemma boot_sequence_witness :
  ∃ server p,
    boot sampleHost = (Returns server, p) ∧
    port server = 5595 ∧
    (fetch sampleHost (served server) healthRequest midnight).1 =
      Returns {| status := 200;
                 body := JObj [("status", JStr "healthy");
                               ("database", JStr "connected");
                               ("timestamp", JStr "2026-01-01T00:00:00.000Z")];
                 headers := [] |}.
Proof.
  destruct (boot_sequence sampleHost eq_refl eq_refl)
    as (server & p & Hboot & Htrace & _ & Hhealth).
  exists server, p. split; [exact Hboot |]. split.
  - vm_compute in Hboot. by injection Hboot as <- _.
  - apply (Hhealth healthRequest midnight); reflexivity.
Defined.

(** C8 as the specification words it fails: in a run whose bot module
    cannot be loaded, both imports are attempted, and none of them after the
    export that puts the server into service. *)
Lemma imports_precede_export :
  (boot sampleHost).1 =
    Returns {| port := 5595; served := builtinApp sampleHost |} ∧
  existsb isImport (trace (boot sampleHost).2) = true ∧
  importsAfterExport (trace (boot sampleHost).2) = false.
Proof. repeat split. Qed.

(** * Further properties of the code *)

(** ** Quota, counters and isolation of the rate limiter *)

Lemma rateLimitRun_exhausted windowMs max k ts :
  ∀ (store : gmap string RateRecord) n reset,
  store !! k = Some {| count := n; resetTime := reset |} →
  Forall (λ t, t ≤ reset) ts →
  max ≤ n →
  rateLimitRun windowMs max (map (pair k) ts) store =
    (replicate (length ts) (Respond tooManyRequests), store).
Proof.
  induction ts as [| t ts IH]; intros store n reset Hrec Hin Hfull.
  - reflexivity.
  - inversion Hin as [| ? ? Ht Hts]; subst. cbn [map rateLimitRun].
    rewrite (rateLimitAt_rejected windowMs max k t store _ Hrec Ht Hfull).
    rewrite (IH store n reset Hrec Hts Hfull). reflexivity.
Qed.

(** The record a client is left with depends on that client's own requests
    only. *)
Lemma rateLimitRun_alone_store windowMs max k arrivals :
  ∀ store1 store2 : gmap string RateRecord,
  store1 !! k = store2 !! k →
  (rateLimitRun windowMs max arrivals store1).2 !! k =
    (rateLimitRun windowMs max (map (pair k) (timesOf k arrivals)) store2).2 !! k.
Proof.
  induction arrivals as [| [key t] rest IH]; intros store1 store2 Heq.
  - exact Heq.
  - cbn [rateLimitRun timesOf].
    destruct (rateLimitAt windowMs max key t store1) as [step store1'] eqn:Hstep1.
    destruct (rateLimitRun windowMs max rest store1') as [steps store1''] eqn:Hrest.
    cbn [snd].
    destruct (String.eqb_spec key k) as [-> | Hne].
    + cbn [map rateLimitRun].
      destruct (rateLimitAt windowMs max k t store2) as [step2 store2'] eqn:Hstep2.
      destruct (rateLimitRun windowMs max _ store2') as [steps2 store2''] eqn:Hrest2.
      cbn [snd].
      destruct (rateLimitAt_local windowMs max k t store1 store2 Heq) as [_ Hrec].
      rewrite Hstep1, Hstep2 in Hrec. cbn in Hrec.
      specialize (IH store1' store2' Hrec).
      rewrite Hrest, Hrest2 in IH. exact IH.
    + assert (Hfr : store1' !! k = store2 !! k).
      { pose proof (rateLimitAt_frame windowMs max key t store1 k) as Hf.
        rewrite Hstep1 in Hf. cbn in Hf. rewrite Hf; [exact Heq | congruence]. }
      specialize (IH store1' store2 Hfr). rewrite Hrest in IH. exact IH.
Qed.

(** The first request of a client whose window is missing or elapsed opens
    a window and passes; the rest of its requests are judged against that
    window. *)
Lemma decisionsOf_fresh windowMs max k (store : gmap string RateRecord)
    arrivals t0 ts :
  timesOf k arrivals = t0 :: ts →
  store !! k = None ∨
    (∃ record, store !! k = Some record ∧ resetTime record < t0) →
  decisionsOf k arrivals (rateLimitRun windowMs max arrivals store).1 =
    Next ::
    (rateLimitRun windowMs max (map (pair k) ts)
       (<[k := {| count := 1; resetTime := t0 + windowMs |}]> store)).1.
Proof.
  intros Htimes Hfresh.
  rewrite (decisionsOf_alone windowMs max k arrivals store store eq_refl).
  rewrite Htimes. cbn [map rateLimitRun].
  rewrite (rateLimitAt_fresh windowMs max k t0 store Hfresh).
  destruct (rateLimitRun windowMs max (map (pair k) ts) _) as [steps store''].
  reflexivity.
Qed.

(** For any positive [max]: of the requests a client sends within the
    window it opened, exactly the first [max] pass and every later one is
    answered 429, whatever other clients do in between. *)
Theorem rateLimit_window_quota windowMs max k (store : gmap string RateRecord)
    arrivals t0 ts :
  1 ≤ max →
  timesOf k arrivals = t0 :: ts →
  store !! k = None ∨
    (∃ record, store !! k = Some record ∧ resetTime record < t0) →
  Forall (λ t, t ≤ t0 + windowMs) ts →
  decisionsOf k arrivals (rateLimitRun windowMs max arrivals store).1 =
    (replicate (Z.to_nat max `min` S (length ts)) Next ++
     replicate (S (length ts) - Z.to_nat max) (Respond tooManyRequests))%list.
Proof.
  intros Hmax Htimes Hfresh Hin.
  rewrite (decisionsOf_fresh windowMs max k store arrivals t0 ts Htimes Hfresh).
  rewrite (rateLimitRun_in_window windowMs max k ts _ 1 (t0 + windowMs)
             ltac:(apply lookup_insert_eq) Hin Hmax).
  replace (Z.to_nat max) with (S (Z.to_nat (max - 1))) by lia.
  rewrite <- Nat.succ_min_distr. reflexivity.
Qed.

Lemma rateLimit_window_quota_witness :
  decisionsOf "1.2.3.4" turns (rateLimitRun 60000 2 turns ∅).1 =
    [Next; Next; Respond tooManyRequests].
Proof.
  apply (rateLimit_window_quota 60000 2 "1.2.3.4" ∅ turns 1000 [2000; 3000]).
  - lia.
  - reflexivity.
  - left. reflexivity.
  - repeat constructor; lia.
Defined.

(** With [max] zero or negative the limiter still lets the request that
    opens a window through, and turns away every other request of that
    window. *)
Theorem rateLimit_nonpositive_max windowMs max k
    (store : gmap string RateRecord) arrivals t0 ts :
  max ≤ 0 →
  timesOf k arrivals = t0 :: ts →
  store !! k = None ∨
    (∃ record, store !! k = Some record ∧ resetTime record < t0) →
  Forall (λ t, t ≤ t0 + windowMs) ts →
  decisionsOf k arrivals (rateLimitRun windowMs max arrivals store).1 =
    Next :: replicate (length ts) (Respond tooManyRequests).
Proof.
  intros Hmax Htimes Hfresh Hin.
  rewrite (decisionsOf_fresh windowMs max k store arrivals t0 ts Htimes Hfresh).
  rewrite (rateLimitRun_exhausted windowMs max k ts _ 1 (t0 + windowMs)
             ltac:(apply lookup_insert_eq) Hin ltac:(lia)).
  reflexivity.
Qed.

Lemma rateLimit_nonpositive_max_witness :
  decisionsOf "1.2.3.4" turns (rateLimitRun 60000 0 turns ∅).1 =
    [Next; Respond tooManyRequests; Respond tooManyRequests].
Proof.
  apply (rateLimit_nonpositive_max 60000 0 "1.2.3.4" ∅ turns 1000 [2000; 3000]).
  - lia.
  - reflexivity.
  - left. reflexivity.
  - repeat constructor; lia.
Defined.

(** The answers a client gets depend on its own requests and its own record
    only: two runs in which that client sends at the same times, from stores
    that agree on its record, answer it alike, whatever the other clients
    send. *)
Theorem rateLimit_isolation windowMs max k arrivals1 arrivals2
    (store1 store2 : gmap string RateRecord) :
  timesOf k arrivals1 = timesOf k arrivals2 →
  store1 !! k = store2 !! k →
  decisionsOf k arrivals1 (rateLimitRun windowMs max arrivals1 store1).1 =
    decisionsOf k arrivals2 (rateLimitRun windowMs max arrivals2 store2).1 ∧
  (rateLimitRun windowMs max arrivals1 store1).2 !! k =
    (rateLimitRun windowMs max arrivals2 store2).2 !! k.
Proof.
  intros Htimes Hrec. split.
  - rewrite (decisionsOf_alone windowMs max k arrivals1 store1 store1 eq_refl).
    rewrite (decisionsOf_alone windowMs max k arrivals2 store2 store1
               (eq_sym Hrec)).
    by rewrite Htimes.
  - rewrite (rateLimitRun_alone_store windowMs max k arrivals1 store1 store1
               eq_refl).
    rewrite (rateLimitRun_alone_store windowMs max k arrivals2 store2 store1
               (eq_sym Hrec)).
    by rewrite Htimes.
Qed.

Lemma rateLimit_isolation_witness :
  decisionsOf "1.2.3.4" turns (rateLimitRun 60000 2 turns ∅).1 =
    decisionsOf "1.2.3.4"
      [("1.2.3.4", 1000); ("1.2.3.4", 2000); ("1.2.3.4", 3000)]
      (rateLimitRun 60000 2
         [("1.2.3.4", 1000); ("1.2.3.4", 2000); ("1.2.3.4", 3000)]
         (delete "1.2.3.4" (rateLimitStore crowded))).1.
Proof.
  apply (rateLimit_isolation 60000 2 "1.2.3.4" turns
           [("1.2.3.4", 1000); ("1.2.3.4", 2000); ("1.2.3.4", 3000)]);
    reflexivity.
Defined.

Lemma rateLimitAt_countsWithin windowMs max key t
    (store : gmap string RateRecord) :
  1 ≤ max →
  countsWithin max store →
  countsWithin max (rateLimitAt windowMs max key t store).2.
Proof.
  intros Hmax Hinv k record. unfold rateLimitAt.
  destruct (store !! key) as [old |] eqn:Hold; cbn.
  - destruct (t >? resetTime old); cbn.
    + rewrite lookup_insert. case_decide; [| apply Hinv].
      intros [= <-]. cbn. lia.
    + destruct (Z.geb_spec (count old) max); cbn; [apply Hinv |].
      rewrite lookup_insert. case_decide; [| apply Hinv].
      intros [= <-]. cbn. pose proof (Hinv key old Hold). lia.
  - rewrite lookup_insert. case_decide; [| apply Hinv].
    intros [= <-]. cbn. lia.
Qed.

(** For any positive [max], no run of the limiter ever stores a counter
    below 1 or above [max], provided the store it starts from holds none
    (as the empty store of a fresh process does). *)
Theorem rateLimit_counters_bounded windowMs max arrivals :
  ∀ store : gmap string RateRecord,
  1 ≤ max →
  countsWithin max store →
  countsWithin max (rateLimitRun windowMs max arrivals store).2.
Proof.
  induction arrivals as [| [key t] rest IH]; intros store Hmax Hinv.
  - exact Hinv.
  - cbn [rateLimitRun].
    pose proof (rateLimitAt_countsWithin windowMs max key t store Hmax Hinv)
      as Hstep.
    destruct (rateLimitAt windowMs max key t store) as [step store'].
    specialize (IH store' Hmax Hstep).
    destruct (rateLimitRun windowMs max rest store') as [steps store''].
    exact IH.
Qed.

Lemma rateLimit_counters_bounded_witness :
  countsWithin defaultMax (rateLimitRun defaultWindowMs defaultMax burst ∅).2.
Proof.
  apply (rateLimit_counters_bounded defaultWindowMs defaultMax burst ∅).
  - unfold defaultMax. lia.
  - intros k record Hnone. rewrite lookup_empty in Hnone. discriminate Hnone.
Defined.

(** The limiter never deletes a record: after a request the store holds the
    keys it held before and the key of that request, and no other. *)
Theorem rateLimit_keeps_keys windowMs max c w :
  dom (rateLimitStore (rateLimit windowMs max c w).2) =
    {[clientKey c]} ∪ dom (rateLimitStore w).
Proof.
  rewrite rateLimit_at. cbn [snd withStore rateLimitStore].
  unfold rateLimitAt.
  destruct (rateLimitStore w !! clientKey c) as [record |] eqn:Hrec; cbn.
  - destruct (now w >? resetTime record); cbn; [by rewrite dom_insert_L |].
    destruct (count record >=? max); cbn; [| by rewrite dom_insert_L].
    apply (elem_of_dom_2 (D := gset string)) in Hrec.
    apply set_eq. intros x. rewrite elem_of_union, elem_of_singleton.
    split; [by right | intros [-> | Hx]; [exact Hrec | exact Hx]].
  - by rewrite dom_insert_L.
Qed.

Lemma rateLimitRun_in_window_store windowMs max k ts :
  ∀ (store : gmap string RateRecord) n reset,
  store !! k = Some {| count := n; resetTime := reset |} →
  Forall (λ t, t ≤ reset) ts →
  n ≤ max →
  (rateLimitRun windowMs max (map (pair k) ts) store).2 !! k =
    Some {| count := Z.min max (n + Z.of_nat (length ts));
            resetTime := reset |}.
Proof.
  induction ts as [| t ts IH]; intros store n reset Hrec Hin Hn.
  - cbn. rewrite Hrec. do 2 f_equal. lia.
  - inversion Hin as [| ? ? Ht Hts]; subst. cbn [map rateLimitRun].
    destruct (Z.eq_dec n max) as [-> | Hlt].
    + rewrite (rateLimitAt_rejected windowMs max k t store _ Hrec); cbn; [| lia | lia].
      specialize (IH store max reset Hrec Hts ltac:(lia)).
      destruct (rateLimitRun windowMs max (map (pair k) ts) store)
        as [steps store'].
      cbn [snd] in *. rewrite IH. do 2 f_equal. lia.
    + rewrite (rateLimitAt_counted windowMs max k t store _ Hrec); cbn; [| lia | lia].
      set (store' := <[k := _]> store).
      specialize (IH store' (n + 1) reset ltac:(apply lookup_insert_eq) Hts
                    ltac:(lia)).
      destruct (rateLimitRun windowMs max (map (pair k) ts) store')
        as [steps store''].
      cbn [snd] in *. rewrite IH. do 2 f_equal. lia.
Qed.

(** The window is fixed, not sliding: while a client's requests arrive no
    later than its record's reset time, the reset time stays what it was and
    the counter grows by one per request until it stops at [max]. *)
Theorem rateLimit_fixed_window windowMs max k (store : gmap string RateRecord)
    arrivals n reset :
  store !! k = Some {| count := n; resetTime := reset |} →
  Forall (λ t, t ≤ reset) (timesOf k arrivals) →
  n ≤ max →
  (rateLimitRun windowMs max arrivals store).2 !! k =
    Some {| count := Z.min max (n + Z.of_nat (length (timesOf k arrivals)));
            resetTime := reset |}.
Proof.
  intros Hrec Hin Hn.
  rewrite (rateLimitRun_alone_store windowMs max k arrivals store store eq_refl).
  by apply rateLimitRun_in_window_store.
Qed.

Lemma rateLimit_fixed_window_witness :
  (rateLimitRun defaultWindowMs defaultMax
     [("1.2.3.4", 1000); ("5.6.7.8", 1500); ("1.2.3.4", 2000);
      ("5.6.7.8", 2500); ("1.2.3.4", 3000)]
     (rateLimitStore crowded)).2
    !! "5.6.7.8" =
    Some {| count := 5; resetTime := 900000 |}.
Proof.
  apply (rateLimit_fixed_window defaultWindowMs defaultMax "5.6.7.8"
           (rateLimitStore crowded)
           [("1.2.3.4", 1000); ("5.6.7.8", 1500); ("1.2.3.4", 2000);
            ("5.6.7.8", 2500); ("1.2.3.4", 3000)] 3 900000).
  - reflexivity.
  - repeat constructor; lia.
  - unfold defaultMax. lia.
Defined.

(** The client key is never the empty string: it is the value of one of the
    two address headers, or the shared "anonymous". *)
Theorem clientKey_nonempty c :
  clientKey c ≠ "" ∧
  (header c "CF-Connecting-IP" = Some (clientKey c) ∨
   header c "X-Forwarded-For" = Some (clientKey c) ∨
   clientKey c = "anonymous").
Proof.
  unfold clientKey, orElse.
  destruct (header c "CF-Connecting-IP") as [cf |];
    [destruct (String.eqb_spec cf "") as [-> | Hcf] |];
    try (split; [assumption | by left]);
    (destruct (header c "X-Forwarded-For") as [xff |];
     [destruct (String.eqb_spec xff "") as [-> | Hxff] |]);
    try (split; [assumption | by right; left]);
    (split; [discriminate | by right; right]).
Qed.

(** ** The app as a whole *)

Lemma routed_throws host routing application r w e w' :
  routed host routing application r w = (Throws e, w') → isError e = false.
Proof.
  unfold routed. rewrite rateLimit_at. cbn [fst snd].
  destruct (rateLimitAt _ _ _ _ _).1; [| discriminate].
  destruct (dispatchAs _ _ _ _ _) as [[resp | [st message | detail | value]] w1];
    cbn [settle internalError]; try discriminate.
  - destruct (validStatus st); discriminate.
  - by intros [= <- _].
Qed.

(** No [Error] escapes [app.fetch]: whatever a route, the not-found handler
    or a collaborator throws, and even when the error handler fails to build
    its response, the request is answered; [app.fetch] throws only what was
    thrown without being an [Error]. *)
Theorem fetch_throws_no_error host application r w e w' :
  fetch host application r w = (Throws e, w') → isError e = false.
Proof.
  destruct (String.eqb_spec (method r) "OPTIONS") as [Hoptions | Hoptions].
  { rewrite (fetch_options host application r w Hoptions). discriminate. }
  destruct (String.eqb_spec (method r) "HEAD") as [Hhead | Hhead].
  - rewrite (fetch_head host application r w Hhead).
    destruct (routed host "GET" application r w) as [[resp | e0] w0] eqn:Hrouted;
      [discriminate |].
    intros [= <- _]. by apply (routed_throws host "GET" application r w e0 w0).
  - rewrite (fetch_routed host application r w Hoptions Hhead).
    apply routed_throws.
Qed.

Lemma fetch_throws_no_error_witness :
  isError (NotAnError (JStr "boom")) = false.
Proof.
  apply (fetch_throws_no_error throwingHost (builtinApp throwingHost)
           catalogRequest midnight (NotAnError (JStr "boom"))
           (fetch throwingHost (builtinApp throwingHost) catalogRequest
              midnight).2).
  vm_compute. reflexivity.
Defined.

(** A client that has used up its quota is answered 429 on every path, by
    every app and for every method but OPTIONS (a HEAD request gets the 429
    without its body): no gate, route, not-found handler or collaborator
    runs, and nothing changes but the clock reading the limiter took. *)
Theorem fetch_over_quota host application r w record :
  method r ≠ "OPTIONS" →
  rateLimitStore w !! clientKey (contextOf r) = Some record →
  now w ≤ resetTime record →
  defaultMax ≤ count record →
  fetch host application r w =
    (Returns (if String.eqb (method r) "HEAD" then noBody tooManyRequests
              else tooManyRequests),
     tick w).
Proof.
  intros Hoptions Hrec Hin Hfull.
  assert (Hrouted : ∀ routing,
    routed host routing application r w = (Returns tooManyRequests, tick w)).
  { intros routing. unfold routed. fold (contextOf r). rewrite rateLimit_at.
    rewrite (rateLimitAt_rejected _ _ _ _ _ record Hrec Hin Hfull).
    reflexivity. }
  destruct (String.eqb_spec (method r) "HEAD") as [Hhead | Hhead].
  - rewrite (fetch_head host application r w Hhead), Hrouted. reflexivity.
  - rewrite (fetch_routed host application r w Hoptions Hhead). apply Hrouted.
Qed.

Lemma fetch_over_quota_witness :
  fetch sampleHost (builtinApp sampleHost)
    (statsRequest "player1" [("CF-Connecting-IP", "1.2.3.4")]) crowded =
    (Returns tooManyRequests, tick crowded).
Proof.
  apply (fetch_over_quota sampleHost (builtinApp sampleHost)
           (statsRequest "player1" [("CF-Connecting-IP", "1.2.3.4")]) crowded
           {| count := 100; resetTime := 900000 |}).
  - discriminate.
  - reflexivity.
  - vm_compute. discriminate.
  - vm_compute. discriminate.
Defined.

(** When the catalog generator itself fails, the catalog route does not
    replace the failure by its own "Failed to generate shop catalog": it
    throws the generator's failure on as it is, and the app's answer is what
    the chain makes of that failure. *)
Theorem catalog_failure_propagates host r w e w1 :
  method r = "GET" →
  path r = ["fortnite"; "api"; "storefront"; "v2"; "catalog"] →
  (rateLimit defaultWindowMs defaultMax (contextOf r) w).1 = Returns Next →
  GenerateShop host (rateLimit defaultWindowMs defaultMax (contextOf r) w).2 =
    (Throws e, w1) →
  catalogHandler host (contextOf r)
    (rateLimit defaultWindowMs defaultMax (contextOf r) w).2 = (Throws e, w1) ∧
  fetch host (builtinApp host) r w = settle host (Throws e, w1).
Proof.
  intros Hmethod Hpath Hpass Hshop.
  assert (Hhandler : catalogHandler host (contextOf r)
            (rateLimit defaultWindowMs defaultMax (contextOf r) w).2 =
            (Throws e, w1)).
  { unfold catalogHandler, bind. by rewrite Hshop. }
  split; [exact Hhandler |].
  destruct (get_is_routed r Hmethod) as [Hoptions Hhead].
  rewrite (fetch_passed host (builtinApp host) r w Hoptions Hhead Hpass).
  cbn [builtinApp routes notFound].
  rewrite (dispatch_catalog host _ r Hmethod Hpath).
  fold (contextOf r). by rewrite Hhandler.
Qed.

Lemma catalog_failure_propagates_witness :
  (fetch brokenShopHost (builtinApp brokenShopHost) catalogRequest midnight).1 =
    Returns {| status := 503;
               body := JObj [("error", JStr "Shop offline");
                             ("status", JNum 503);
                             ("timestamp", JStr "2026-01-01T00:00:00.000Z")];
               headers := [] |}.
Proof.
  rewrite (proj2 (catalog_failure_propagates brokenShopHost catalogRequest
                    midnight (HTTPException 503 "Shop offline")
                    (rateLimit defaultWindowMs defaultMax
                       (contextOf catalogRequest) midnight).2
                    eq_refl eq_refl eq_refl eq_refl)).
  reflexivity.
Defined.

Lemma statsRoute_store host c w :
  rateLimitStore (statsRoute host c w).2 = rateLimitStore w.
Proof.
  unfold statsRoute, gated, statsHandler.
  destruct (requireAuth c); [| reflexivity].
  destruct (param c "playerId") as [playerId |]; [| reflexivity].
  destruct (orb (String.eqb playerId "") _); reflexivity.
Qed.

Lemma settle_store host outcome :
  rateLimitStore (settle host outcome).2 = rateLimitStore outcome.2.
Proof.
  destruct outcome as [[resp | [st message | detail | value]] w1];
    cbn [settle internalError]; try reflexivity.
  destruct (validStatus st); reflexivity.
Qed.

(** On the player-stats, root and health routes the store is touched by the
    limiter alone: the handlers, the gate and the error handler leave it as
    the limiter left it. A request that ends in 401 or 400 has therefore
    consumed quota like any other. *)
Theorem handlers_leave_store host r w :
  method r = "GET" →
  (∃ playerId, playerId ≠ "" ∧
     path r = ["fortnite"; "api"; "player"; playerId; "stats"]) ∨
    path r = [] ∨ path r = ["health"] →
  rateLimitStore (fetch host (builtinApp host) r w).2 =
    (rateLimitAt defaultWindowMs defaultMax (clientKey (contextOf r)) (now w)
       (rateLimitStore w)).2.
Proof.
  intros Hmethod Hpath.
  destruct (get_is_routed r Hmethod) as [Hoptions Hhead].
  destruct (rateLimitAt defaultWindowMs defaultMax (clientKey (contextOf r))
              (now w) (rateLimitStore w)) as [step store'] eqn:Hstep.
  destruct step as [| resp].
  - assert (Hpass : (rateLimit defaultWindowMs defaultMax (contextOf r) w).1 =
                    Returns Next).
    { rewrite rateLimit_at, Hstep. reflexivity. }
    rewrite (fetch_passed host (builtinApp host) r w Hoptions Hhead Hpass).
    rewrite settle_store.
    rewrite rateLimit_at, Hstep. cbn [fst snd builtinApp routes notFound].
    destruct Hpath as [(playerId & Hne & Hpath) | [Hpath | Hpath]].
    + rewrite (dispatch_stats host _ r playerId Hmethod Hpath Hne).
      apply statsRoute_store.
    + rewrite (dispatch_root host _ r Hmethod Hpath). reflexivity.
    + rewrite (dispatch_health host _ r Hmethod Hpath). reflexivity.
  - rewrite (fetch_routed host (builtinApp host) r w Hoptions Hhead).
    unfold routed. fold (contextOf r). rewrite rateLimit_at, Hstep. reflexivity.
Qed.

Lemma handlers_leave_store_witness :
  (fetch sampleHost (builtinApp sampleHost) (statsRequest "ab" basic)
     midnight).1 = Returns unauthorized ∧
  rateLimitStore
    (fetch sampleHost (builtinApp sampleHost) (statsRequest "ab" basic)
       midnight).2 !! "anonymous" =
    Some {| count := 1; resetTime := 900000 |}.
Proof.
  split; [reflexivity |].
  rewrite (handlers_leave_store sampleHost (statsRequest "ab" basic) midnight).
  - reflexivity.
  - reflexivity.
  - left. exists "ab". split; [discriminate | reflexivity].
Defined.



(** ** Start-up and configuration *)

(** A required step that fails ends the module body with that failure: no
    built-in route is registered, no optional module is tried, nothing is
    exported, and when it is the storage connection that fails the route
    loader is not even called. The process handlers are in place before
    either step. *)
Theorem required_step_failure host e :
  Connect host = Rejected e ∨
    (Connect host = Resolved ∧ LoadRoutes host = Rejected e) →
  (boot host).1 = Throws e ∧
  routes (app (boot host).2) = [] ∧
  existsb isImport (trace (boot host).2) = false ∧
  existsb isExport (trace (boot host).2) = false ∧
  (Connect host = Rejected e →
   trace (boot host).2 =
     [EvProcessOn "SIGTERM"; EvProcessOn "SIGINT";
      EvProcessOn "unhandledRejection"; EvProcessOn "uncaughtException";
      EvConnect]).
Proof.
  unfold boot, main, startServer.
  intros [Hc | [Hc Hl]]; rewrite Hc; [| rewrite Hl]; repeat split.
  intros [=].
Qed.

Lemma required_step_failure_witness :
  (boot downHost).1 = Throws (Thrown (JStr "ECONNREFUSED")) ∧
  routes (app (boot downHost).2) = [] ∧
  existsb isImport (trace (boot downHost).2) = false ∧
  existsb isExport (trace (boot downHost).2) = false.
Proof.
  destruct (required_step_failure downHost (Thrown (JStr "ECONNREFUSED")))
    as (Hthrow & Hroutes & Himport & Hexport & _).
  - left. reflexivity.
  - repeat split; assumption.
Defined.

(** The exported port is read from PORT, and from "5595" when PORT is unset
    or empty. *)
Theorem exported_port host :
  Connect host = Resolved →
  LoadRoutes host = Resolved →
  ∃ server p,
    boot host = (Returns server, p) ∧
    (PORT host = None ∨ PORT host = Some "" →
     port server = parseInt host "5595") ∧
    (∀ s, PORT host = Some s → s ≠ "" → port server = parseInt host s).
Proof.
  intros Hconnect Hload. eexists _, _.
  split; [apply (boot_resolved host Hconnect Hload) |].
  cbn [port]. split.
  - intros [-> | ->]; reflexivity.
  - intros s -> Hne. cbn.
    destruct (String.eqb_spec s ""); [contradiction | reflexivity].
Qed.

Lemma exported_port_witness :
  ∃ server p,
    boot brokenShopHost = (Returns server, p) ∧
    port server = parseInt brokenShopHost "5595".
Proof.
  destruct (exported_port brokenShopHost eq_refl eq_refl)
    as (server & p & Hboot & Hdefault & _).
  exists server, p. split; [exact Hboot |].
  apply Hdefault. right. reflexivity.
Defined.

(** Routes registered by [LoadRoutes] come before the built-in ones: when
    the first of them matches a request (other than OPTIONS and HEAD) that
    the limiter passes, the answer is the outcome of its handler as the
    chain settles it, and the built-in route for the same path does not
    run. *)
Theorem loaded_route_first host entry others r w ps :
  Connect host = Resolved →
  LoadRoutes host = Resolved →
  loadedRoutes host = entry :: others →
  method r ≠ "OPTIONS" →
  method r ≠ "HEAD" →
  routeMethod entry = method r →
  matchPath (routePattern entry) (path r) = Some ps →
  (rateLimit defaultWindowMs defaultMax (contextOf r) w).1 = Returns Next →
  ∃ server p,
    boot host = (Returns server, p) ∧
    fetch host (served server) r w =
      settle host
        (routeHandler entry {| req := r; params := ps |}
           (rateLimit defaultWindowMs defaultMax (contextOf r) w).2).
Proof.
  intros Hconnect Hload Hloaded Hoptions Hhead Hmethod Hmatch Hpass.
  eexists _, _.
  split; [apply (boot_resolved host Hconnect Hload) |].
  cbn [served]. rewrite (fetch_passed host _ r w Hoptions Hhead Hpass).
  cbn [routes notFound]. rewrite Hloaded, <- app_comm_cons.
  unfold dispatch. cbn [dispatchAs].
  rewrite Hmethod, String.eqb_refl, Hmatch. reflexivity.
Qed.

Lemma loaded_route_first_witness :
  ∃ server p,
    boot shadowHost = (Returns server, p) ∧
    (fetch shadowHost (served server) healthRequest midnight).1 =
      Returns {| status := 503;
                 body := JObj [("status", JStr "maintenance")];
                 headers := [] |}.
Proof.
  destruct (loaded_route_first shadowHost maintenance [] healthRequest midnight
              [] eq_refl eq_refl eq_refl ltac:(discriminate)
              ltac:(discriminate) eq_refl eq_refl eq_refl)
    as (server & p & Hboot & Hfetch).
  exists server, p. split; [exact Hboot |].
  rewrite Hfetch. reflexivity.
Defined.

Lemma split_comma_cons s : ∃ piece pieces, split_comma s = piece :: pieces.
Proof.
  destruct s as [| ch rest]; cbn; [by eexists _, _ |].
  destruct (Ascii.eqb ch ","); [by eexists _, _ |].
  destruct (split_comma rest); by eexists _, _.
Qed.

Lemma split_comma_concat s : String.concat "," (split_comma s) = s.
Proof.
  induction s as [| ch rest IH]; [reflexivity |].
  cbn [split_comma].
  destruct (Ascii.eqb_spec ch ","%char) as [-> | Hne].
  - destruct (split_comma_cons rest) as (piece & pieces & Hsplit).
    rewrite Hsplit in IH |- *. cbn [String.concat].
    cbn [String.concat] in IH. rewrite IH. reflexivity.
  - destruct (split_comma_cons rest) as (piece & pieces & Hsplit).
    rewrite Hsplit in IH |- *.
    destruct pieces as [| piece' pieces].
    + cbn [String.concat] in IH |- *. by rewrite IH.
    + change (String.concat "," (String ch piece :: piece' :: pieces))
        with (String ch (String.concat "," (piece :: piece' :: pieces))).
      by rewrite IH.
Qed.

Lemma split_comma_pieces s :
  Forall (λ piece, contains_comma piece = false) (split_comma s).
Proof.
  induction s as [| ch rest IH]; [by repeat constructor |].
  cbn [split_comma].
  destruct (Ascii.eqb ch ","%char) eqn:Hch; [by constructor |].
  destruct (split_comma rest) as [| piece pieces]; [by repeat constructor; cbn; rewrite Hch |].
  inversion IH as [| ? ? Hpiece Hpieces]; subst.
  constructor; [| exact Hpieces]. cbn. by rewrite Hch, Hpiece.
Qed.

(** An unset CORS_ORIGIN gives the wildcard as the only allowed origin. A
    set one gives its comma-separated pieces: at least one, none containing
    a comma, and joined by commas they give the variable back; so an empty
    CORS_ORIGIN yields the single empty origin, not the wildcard, and a set
    variable yields the wildcard list exactly when it is the string "*". *)
Theorem corsOrigin_pieces :
  corsOrigin None = ["*"] ∧
  corsOrigin (Some "") = [""] ∧
  ∀ s,
    corsOrigin (Some s) ≠ [] ∧
    String.concat "," (corsOrigin (Some s)) = s ∧
    Forall (λ piece, contains_comma piece = false) (corsOrigin (Some s)) ∧
    (corsOrigin (Some s) = ["*"] ↔ s = "*").
Proof.
  split; [reflexivity |]. split; [reflexivity |].
  intros s. cbn [corsOrigin]. split; [| split; [| split]].
  - destruct (split_comma_cons s) as (piece & pieces & ->). discriminate.
  - apply split_comma_concat.
  - apply split_comma_pieces.
  - split.
    + intros Hwild. rewrite <- (split_comma_concat s), Hwild. reflexivity.
    + intros ->. reflexivity.
Qed.
